(** * frontend-chatpp: the chat client's message handling and the sign-in form

  A shallow embedding of [src/components/ChatApp.tsx] (the second,
  current version of the component: WebSocket handler, senders) and of
  [src/components/AuthForm.tsx] (form validation), with the properties
  the specification states about them.

  Conventions.
  - A JavaScript string is its sequence of UTF-16 code units.
  - A JavaScript number that holds an identifier or a size is an integer.
  - React state is passed explicitly: a handler takes the state it closes
    over and the previous value of what it updates, and returns the next
    value.
  - [JSON.parse] followed by the unchecked cast [as ServerEvent] is a
    parameter of the handler: [None] stands for the exception it throws. *)

From Stdlib Require Import List ZArith NArith Bool String Ascii Lia.
Import ListNotations.

Set Implicit Arguments.
Set Warnings "-register-all".

(** ** JavaScript values used by the client *)

Module Js.

(** A string: UTF-16 code units. *)
Definition jsstring := list N.

(** A literal of the source written in ASCII. *)
Definition lit (s : string) : jsstring :=
  map N_of_ascii (list_ascii_of_string s).

Definition str_eqb (a b : jsstring) : bool :=
  if list_eq_dec N.eq_dec a b then true else false.

(** [!s] is false exactly for the non-empty strings. *)
Definition str_truthy (s : jsstring) : bool :=
  match s with [] => false | _ :: _ => true end.

(** WhiteSpace and LineTerminator code points of ECMAScript: what
    [String.prototype.trim] strips and what [\s] matches. *)
Definition is_white_space (c : N) : bool :=
  (  (c =? 9) || (c =? 10) || (c =? 11) || (c =? 12) || (c =? 13)
  || (c =? 32) || (c =? 160) || (c =? 5760)
  || ((8192 <=? c) && (c <=? 8202))
  || (c =? 8232) || (c =? 8233) || (c =? 8239) || (c =? 8287)
  || (c =? 12288) || (c =? 65279))%N.

Fixpoint trimStart (s : jsstring) : jsstring :=
  match s with
  | [] => []
  | c :: r => if is_white_space c then trimStart r else s
  end.

Definition trimEnd (s : jsstring) : jsstring := rev (trimStart (rev s)).

(** [s.trim()] *)
Definition trim (s : jsstring) : jsstring := trimEnd (trimStart s).

(** A property that may be missing ([undefined]), [null], or hold a
    value.  The server writes [recipientId: null] on general messages
    and the client's own frames do so too, hence both are kept. *)
Inductive optional (A : Type) : Type :=
| undefined : optional A
| null : optional A
| val : A -> optional A.
Arguments undefined {A}.
Arguments null {A}.
Arguments val {A} _.

(** [a === b] on optional numbers. *)
Definition strict_eq (a b : optional Z) : bool :=
  match a, b with
  | undefined, undefined => true
  | null, null => true
  | val x, val y => Z.eqb x y
  | _, _ => false
  end.

(** [!v] on an optional number: [undefined], [null] and [0] are falsy. *)
Definition num_falsy (v : optional Z) : bool :=
  match v with
  | undefined | null => true
  | val n => Z.eqb n 0
  end.

(** [v || null] on an optional number. *)
Definition num_or_null (v : optional Z) : optional Z :=
  if num_falsy v then null else v.

End Js.
Import Js.

(** ** Data model ([ChatApp.tsx], interfaces) *)

Module User.
Record t : Type := mk { id : Z; username : jsstring; email : jsstring }.
End User.

Module Reaction.
Record t : Type := mk { emoji : jsstring; users : list jsstring }.
End Reaction.

Module MessageType.
Inductive t : Type := text | image | video | file.
End MessageType.

Module ChatMessage.
Inductive t : Type := mk {
  id : option jsstring;
  user : User.t;
  content : jsstring;
  created_at : jsstring;
  messageType : option MessageType.t;
  fileUrl : option jsstring;
  fileName : option jsstring;
  fileSize : option Z;
  replyTo : option t;
  recipientId : optional Z;
  recipientUsername : option jsstring;
  recipientEmail : option jsstring;
  reactions : option (list Reaction.t)
}.

(** [{ ...msg, reactions: r }] *)
Definition with_reactions (msg : t) (r : list Reaction.t) : t :=
  mk (id msg) (user msg) (content msg) (created_at msg) (messageType msg)
     (fileUrl msg) (fileName msg) (fileSize msg) (replyTo msg)
     (recipientId msg) (recipientUsername msg) (recipientEmail msg)
     (Some r).
End ChatMessage.

Module ServerEvent.
Inductive t : Type :=
| boot (messages : option (list ChatMessage.t)) (online_users : option (list User.t))
| message (data : ChatMessage.t)
| online_users (data : option (list User.t))
| reaction (messageId : jsstring) (reaction : Reaction.t)
| delete (messageId : jsstring)
| error (data : jsstring).
End ServerEvent.

(** ** React state of [ChatApp] *)

(** What [ws.onmessage] closes over: the signed-in [user] (the effect
    returns early while it is [null]), [isDirectMessage] and
    [selectedUser]. *)
Record Closure : Type := {
  user : User.t;
  isDirectMessage : bool;
  selectedUser : option User.t
}.

(** What [ws.onmessage] updates. *)
Record State : Type := {
  messages : list ChatMessage.t;
  onlineUsers : list User.t
}.

(** [setMessages(f)] *)
Definition setMessages (f : list ChatMessage.t -> list ChatMessage.t)
  (st : State) : State :=
  {| messages := f (messages st); onlineUsers := onlineUsers st |}.

(** [setOnlineUsers(us)] *)
Definition setOnlineUsers (us : list User.t) (st : State) : State :=
  {| messages := messages st; onlineUsers := us |}.

(** [x || []] *)
Definition or_empty {A : Type} (x : option (list A)) : list A :=
  match x with Some l => l | None => [] end.

(** Truthiness of an object reference that may be [null]. *)
Definition truthy {A : Type} (x : option A) : bool :=
  match x with Some _ => true | None => false end.

(** [user?.id] *)
Definition user_id (c : Closure) : optional Z := val (User.id (user c)).

(** [selectedUser?.id] *)
Definition selectedUser_id (su : option User.t) : optional Z :=
  match su with Some u => val (User.id u) | None => undefined end.

(** [msg.id === messageId] *)
Definition id_is (messageId : jsstring) (msg : ChatMessage.t) : bool :=
  match ChatMessage.id msg with
  | Some i => str_eqb i messageId
  | None => false
  end.

(** ** [ws.onmessage] *)

(** The test of the boot branch's [filter] in a direct conversation:
    [(msg.user.id === user?.id && msg.recipientId === selectedUser?.id) ||
     (msg.user.id === selectedUser?.id && msg.recipientId === user?.id)]. *)
Definition boot_direct (c : Closure) (msg : ChatMessage.t) : bool :=
  (strict_eq (val (User.id (ChatMessage.user msg))) (user_id c)
   && strict_eq (ChatMessage.recipientId msg) (selectedUser_id (selectedUser c)))
  || (strict_eq (val (User.id (ChatMessage.user msg))) (selectedUser_id (selectedUser c))
      && strict_eq (ChatMessage.recipientId msg) (user_id c)).

(** The test of the boot branch's [filter] in general chat:
    [!msg.recipientId]. *)
Definition boot_general (msg : ChatMessage.t) : bool :=
  num_falsy (ChatMessage.recipientId msg).

(** Which messages of a boot snapshot are kept. *)
Definition boot_accepts (c : Closure) (msg : ChatMessage.t) : bool :=
  if isDirectMessage c && truthy (selectedUser c)
  then boot_direct c msg
  else boot_general msg.

(** Which messages of a [message] event are appended: under
    [if (isDirectMessage)] the same test on author and recipient, otherwise
    [!message.recipientId]. *)
Definition live_accepts (c : Closure) (message : ChatMessage.t) : bool :=
  if isDirectMessage c
  then
    (strict_eq (val (User.id (ChatMessage.user message))) (user_id c)
     && strict_eq (ChatMessage.recipientId message) (selectedUser_id (selectedUser c)))
    || (strict_eq (val (User.id (ChatMessage.user message))) (selectedUser_id (selectedUser c))
        && strict_eq (ChatMessage.recipientId message) (user_id c))
  else num_falsy (ChatMessage.recipientId message).

(** The [try] block, once [JSON.parse] has returned [parsed]. *)
Definition handle (c : Closure) (parsed : ServerEvent.t) (st : State) : State :=
  match parsed with
  | ServerEvent.boot ms us =>
      let allMessages := or_empty ms in
      setOnlineUsers (or_empty us)
        (setMessages (fun _ => filter (boot_accepts c) allMessages) st)
  | ServerEvent.message message =>
      if live_accepts c message
      then setMessages (fun prev => prev ++ [message]) st
      else st
  | ServerEvent.online_users us => setOnlineUsers (or_empty us) st
  | ServerEvent.reaction messageId r =>
      setMessages
        (fun prev =>
           map (fun msg =>
                  if id_is messageId msg
                  then ChatMessage.with_reactions msg
                         (or_empty (ChatMessage.reactions msg) ++ [r])
                  else msg) prev) st
  | ServerEvent.delete messageId =>
      setMessages (fun prev => filter (fun msg => negb (id_is messageId msg)) prev) st
  | ServerEvent.error _ => st
  end.

(** The two readings of the clock in the [catch] block:
    [Date.now().toString()] and [new Date().toISOString()]. *)
Record Clock : Type := {
  Date_now_toString : jsstring;
  Date_toISOString : jsstring
}.

(** [{ id: 0, username: "System", email: "system" }] *)
Definition System : User.t :=
  User.mk 0%Z (lit "System") (lit "system").

(** The message the [catch] block builds from the raw payload. *)
Definition plain_text_message (clk : Clock) (asText : jsstring) : ChatMessage.t :=
  ChatMessage.mk (Some (Date_now_toString clk)) System asText
    (Date_toISOString clk) (Some MessageType.text)
    None None None None undefined None None None.

(** The [catch] block: the plain text broadcast fallback. *)
Definition fallback (clk : Clock) (data : jsstring) (st : State) : State :=
  let asText := data in
  if (0 <? List.length (trim asText))%nat
  then setMessages (fun prev => prev ++ [plain_text_message clk asText]) st
  else st.

(** The [try] block run on a sequence of parsed events, in arrival order. *)
Fixpoint handle_all (c : Closure) (events : list ServerEvent.t) (st : State)
  : State :=
  match events with
  | [] => st
  | parsed :: rest => handle_all c rest (handle c parsed st)
  end.

Section Handler.

(** [JSON.parse(event.data) as ServerEvent]; [None] when it throws. *)
Variable JSON_parse : jsstring -> option ServerEvent.t.

Definition onmessage (c : Closure) (clk : Clock) (data : jsstring)
  (st : State) : State :=
  match JSON_parse data with
  | Some parsed => handle c parsed st
  | None => fallback clk data st
  end.

End Handler.

(** ** Sending: [sendMessage], [handleFileUpload], [sendEmojiDirectly] *)

Module WebSocket.
(** [readyState] *)
Inductive t : Type := CONNECTING | OPEN | CLOSING | CLOSED.
End WebSocket.

(** [!wsRef.current || wsRef.current.readyState !== WebSocket.OPEN] *)
Definition not_open (wsRef : option WebSocket.t) : bool :=
  match wsRef with
  | Some WebSocket.OPEN => false
  | _ => true
  end.

(** The object literals the senders pass to [JSON.stringify]; a key that
    a literal does not write is [undefined]. *)
Module MessageData.
Record t : Type := mk {
  content : jsstring;
  fileUrl : optional jsstring;
  fileName : optional jsstring;
  fileSize : optional Z;
  messageType : MessageType.t;
  replyTo : optional jsstring;
  recipientId : optional Z
}.
End MessageData.

(** What is handed to [wsRef.current.send]: a string as it is, or
    [JSON.stringify(messageData)]. *)
Inductive Frame : Type :=
| Raw (payload : jsstring)
| Json (messageData : MessageData.t).

(** [replyTo?.id ? String(replyTo.id) : null] *)
Definition replyTo_id (replyTo : option ChatMessage.t) : optional jsstring :=
  match replyTo with
  | Some r =>
      match ChatMessage.id r with
      | Some i => if str_truthy i then val i else null
      | None => null
      end
  | None => null
  end.

(** What the senders close over. *)
Record Composer : Type := {
  wsRef : option WebSocket.t;
  directMode : bool;                  (* isDirectMessage *)
  selected : option User.t;           (* selectedUser *)
  replyTo : option ChatMessage.t;
  input : jsstring
}.

(** [setInput(""); setReplyTo(null)] *)
Definition clear_input (k : Composer) : Composer :=
  {| wsRef := wsRef k; directMode := directMode k; selected := selected k;
     replyTo := None; input := [] |}.

(** [setReplyTo(null)] *)
Definition clear_reply (k : Composer) : Composer :=
  {| wsRef := wsRef k; directMode := directMode k; selected := selected k;
     replyTo := None; input := input k |}.

(** [sendMessage]: the frames sent and the composer afterwards. *)
Definition sendMessage (k : Composer) : list Frame * Composer :=
  let trimmed := trim (input k) in
  if negb (str_truthy trimmed) || not_open (wsRef k) then ([], k)
  else if directMode k || truthy (replyTo k) then
    let messageData :=
      MessageData.mk trimmed undefined undefined undefined MessageType.text
        (replyTo_id (replyTo k))
        (num_or_null (selectedUser_id (selected k))) in
    ([Json messageData], clear_input k)
  else ([Raw trimmed], clear_input k).

(** [sendEmojiDirectly(emoji)] *)
Definition sendEmojiDirectly (k : Composer) (emoji : jsstring) : list Frame :=
  if not_open (wsRef k) then []
  else if directMode k then
    [Json (MessageData.mk emoji undefined undefined undefined MessageType.text
             undefined (num_or_null (selectedUser_id (selected k))))]
  else [Raw emoji].

(** [s.startsWith(p)] *)
Fixpoint startsWith (s p : jsstring) : bool :=
  match p, s with
  | [], _ => true
  | _ :: _, [] => false
  | a :: p', b :: s' => N.eqb a b && startsWith s' p'
  end.

(** What [const { fileUrl, fileName, fileSize } = await response.json()]
    binds: the three members of the answer of [POST /upload] as they come;
    the client does not check that any of them is there. *)
Record UploadBody : Type := {
  up_fileUrl : optional jsstring;
  up_fileName : optional jsstring;
  up_fileSize : optional Z
}.

(** The outcome of [fetch(.../upload)] and [response.json()]: [None] when
    either throws. *)
Record Response : Type := { ok : bool; json : UploadBody }.

(** [file.type.startsWith('image/') ? 'image' :
     file.type.startsWith('video/') ? 'video' : 'file'] *)
Definition upload_messageType (file_type : jsstring) : MessageType.t :=
  if startsWith file_type (lit "image/") then MessageType.image
  else if startsWith file_type (lit "video/") then MessageType.video
  else MessageType.file.

(** [handleFileUpload]: [file_type] is [event.target.files?.[0]?.type],
    [None] when no file was chosen. *)
Definition handleFileUpload (k : Composer) (file_type : option jsstring)
  (response : option Response) : list Frame * Composer :=
  match file_type with
  | None => ([], k)
  | Some ty =>
      if not_open (wsRef k) then ([], k)
      else
        match response with
        | Some r =>
            if ok r then
              let messageData :=
                MessageData.mk [] (up_fileUrl (json r))
                  (up_fileName (json r)) (up_fileSize (json r))
                  (upload_messageType ty) (replyTo_id (replyTo k)) undefined in
              ([Json messageData], clear_reply k)
            else ([], k)
        | None => ([], k)
        end
  end.


(** ** [AuthForm.tsx] *)

Module Regex.

(** The fragment of regular expressions the form uses: a class of code
    units, concatenation, and greedy [+]. *)
Inductive t : Type :=
| Class (p : N -> bool)
| Cat (r1 r2 : t)
| Plus (r : t).

(** [\S] *)
Definition NonSpace : t := Class (fun c => negb (is_white_space c)).

(** A literal character. *)
Definition Chr (a : N) : t := Class (N.eqb a).

(** Greedy repetition of [step], one or more times: after each
    repetition try another one first, and hand the rest to [k] when that
    fails.  A repetition consumes input, so the length of the input
    bounds their number. *)
Fixpoint plus_loop (step : jsstring -> (jsstring -> bool) -> bool)
  (fuel : nat) (s : jsstring) (k : jsstring -> bool) {struct fuel} : bool :=
  step s (fun s' =>
            match fuel with
            | S fuel' => plus_loop step fuel' s' k || k s'
            | O => k s'
            end).

(** Backtracking matcher: [go r s k] matches [r] at the start of [s] and
    hands the rest to the continuation [k]. *)
Fixpoint go (r : t) (s : jsstring) (k : jsstring -> bool) {struct r} : bool :=
  match r with
  | Class p =>
      match s with
      | c :: s' => p c && k s'
      | [] => false
      end
  | Cat r1 r2 => go r1 s (fun s' => go r2 s' k)
  | Plus r0 => plus_loop (go r0) (List.length s) s k
  end.

(** A match starting exactly at the head of [s]. *)
Definition match_here (r : t) (s : jsstring) : bool := go r s (fun _ => true).

(** [r.test(s)] for a regular expression without flags: a match starting
    at some index. *)
Fixpoint test (r : t) (s : jsstring) : bool :=
  match_here r s ||
  match s with
  | [] => false
  | _ :: s' => test r s'
  end.

(** The language of a regular expression. *)
Inductive matches : t -> jsstring -> Prop :=
| m_class p c : p c = true -> matches (Class p) [c]
| m_cat r1 r2 s1 s2 :
    matches r1 s1 -> matches r2 s2 -> matches (Cat r1 r2) (s1 ++ s2)
| m_plus_one r s : matches r s -> matches (Plus r) s
| m_plus_more r s1 s2 :
    matches r s1 -> matches (Plus r) s2 -> matches (Plus r) (s1 ++ s2).

(** Some substring of [s] is in the language of [r]. *)
Definition found (r : t) (s : jsstring) : Prop :=
  exists pre m post, s = pre ++ m ++ post /\ matches r m.

(** What it means for a matcher in continuation style to decide a
    language [L]. *)
Definition decides (step : jsstring -> (jsstring -> bool) -> bool)
  (L : jsstring -> Prop) : Prop :=
  forall s k,
    step s k = true <->
    exists s1 s2, s = s1 ++ s2 /\ L s1 /\ k s2 = true.

End Regex.

Module AuthForm.

Inductive mode : Type := signin | signup.

(** [formData] *)
Record FormData : Type := {
  email : jsstring;
  password : jsstring;
  username : jsstring
}.

(** The keys of [newErrors]. *)
Inductive field : Type := f_email | f_password | f_username.

(** [newErrors]: the assignments made, in order. *)
Definition Errors := list (field * string).

(** [/\S+@\S+\.\S+/] *)
Definition email_re : Regex.t :=
  Regex.Cat (Regex.Plus Regex.NonSpace)
    (Regex.Cat (Regex.Chr 64)
       (Regex.Cat (Regex.Plus Regex.NonSpace)
          (Regex.Cat (Regex.Chr 46) (Regex.Plus Regex.NonSpace)))).

Definition email_errors (formData : FormData) : Errors :=
  if negb (str_truthy (email formData)) then [(f_email, "Email is required"%string)]
  else if negb (Regex.test email_re (email formData))
       then [(f_email, "Email is invalid"%string)]
       else [].

Definition password_errors (formData : FormData) : Errors :=
  if negb (str_truthy (password formData))
  then [(f_password, "Password is required"%string)]
  else if (List.length (password formData) <? 6)%nat
       then [(f_password, "Password must be at least 6 characters"%string)]
       else [].

Definition is_signup (m : mode) : bool :=
  match m with signup => true | signin => false end.

Definition username_errors (m : mode) (formData : FormData) : Errors :=
  if is_signup m && negb (str_truthy (username formData))
  then [(f_username, "Username is required"%string)]
  else if is_signup m && (List.length (username formData) <? 3)%nat
       then [(f_username, "Username must be at least 3 characters"%string)]
       else [].

(** [validateForm]: the errors it stores with [setErrors] and its result,
    [Object.keys(newErrors).length === 0]. *)
Definition validateForm (m : mode) (formData : FormData) : Errors * bool :=
  let newErrors :=
    email_errors formData ++ password_errors formData ++ username_errors m formData in
  (newErrors, (List.length newErrors =? 0)%nat).

(** The argument of [onSubmit]; [username] is absent in sign-in mode. *)
Record SubmitData : Type := {
  sd_email : jsstring;
  sd_password : jsstring;
  sd_username : option jsstring
}.

(** [handleSubmit]: [Some submitData] when [onSubmit(submitData)] is
    called, [None] when it is not. *)
Definition handleSubmit (m : mode) (formData : FormData) : option SubmitData :=
  if snd (validateForm m formData) then
    Some (match m with
          | signup =>
              {| sd_email := email formData; sd_password := password formData;
                 sd_username := Some (username formData) |}
          | signin =>
              {| sd_email := email formData; sd_password := password formData;
                 sd_username := None |}
          end)
  else None.

End AuthForm.

(** ** The specification's notions *)

(** A message of the direct conversation of [a] and [b]:
    [(author = a /\ recipient = b) \/ (author = b /\ recipient = a)]. *)
Definition between (a b : Z) (m : ChatMessage.t) : Prop :=
  (User.id (ChatMessage.user m) = a /\ ChatMessage.recipientId m = val b) \/
  (User.id (ChatMessage.user m) = b /\ ChatMessage.recipientId m = val a).

(** A message without recipient: [recipientId] is missing or [null]. *)
Definition no_recipient (m : ChatMessage.t) : Prop :=
  ChatMessage.recipientId m = undefined \/ ChatMessage.recipientId m = null.

(** What the client takes for a message without recipient: [recipientId]
    is missing, [null], or the number [0]. *)
Definition falsy_recipient (m : ChatMessage.t) : Prop :=
  no_recipient m \/ ChatMessage.recipientId m = val 0%Z.

(** [erased P l l']: [l'] is [l] without the elements that satisfy [P],
    the others untouched and in the same order. *)
Inductive erased {A : Type} (P : A -> Prop) : list A -> list A -> Prop :=
| erased_nil : erased P [] []
| erased_drop x l l' : P x -> erased P l l' -> erased P (x :: l) l'
| erased_keep x l l' : ~ P x -> erased P l l' -> erased P (x :: l) (x :: l').

(** ** The server's reading of a frame *)

(** JSON texts (RFC 8259), as the server's first step parses them. *)
Module Json.

Inductive t : Type :=
| JNull
| JBool (b : bool)
| JNumber (literal : jsstring)
| JString (s : jsstring)
| JArray (elements : list t)
| JObject (members : list (jsstring * t)).

(** Space, tab, line feed, carriage return. *)
Definition is_ws (c : N) : bool :=
  ((c =? 32) || (c =? 9) || (c =? 10) || (c =? 13))%N.

Fixpoint skip_ws (s : jsstring) : jsstring :=
  match s with
  | [] => []
  | c :: r => if is_ws c then skip_ws r else s
  end.

Definition is_digit (c : N) : bool := ((48 <=? c) && (c <=? 57))%N.

(** The value of a hexadecimal digit. *)
Definition hex (c : N) : option N :=
  (if is_digit c then Some (c - 48)
   else if (97 <=? c) && (c <=? 102) then Some (c - 87)
   else if (65 <=? c) && (c <=? 70) then Some (c - 55)
   else None)%N.

Definition hex4 (a b c d : N) : option N :=
  match hex a, hex b, hex c, hex d with
  | Some x, Some y, Some z, Some w => Some (((x * 16 + y) * 16 + z) * 16 + w)%N
  | _, _, _, _ => None
  end.

(** The character a one-letter escape stands for. *)
Definition escape (c : N) : option N :=
  (if (c =? 34) || (c =? 92) || (c =? 47) then Some c
   else if c =? 98 then Some 8
   else if c =? 102 then Some 12
   else if c =? 110 then Some 10
   else if c =? 114 then Some 13
   else if c =? 116 then Some 9
   else None)%N.

Definition push {A : Type} (c : A) (r : option (list A * jsstring))
  : option (list A * jsstring) :=
  match r with
  | Some (l, rest) => Some (c :: l, rest)
  | None => None
  end.

(** A string after its opening quote: its characters and what follows the
    closing quote. *)
Fixpoint string_body (s : jsstring) : option (jsstring * jsstring) :=
  match s with
  | [] => None
  | c :: r =>
      if (c =? 34)%N then Some ([], r)
      else if (c =? 92)%N then
        match r with
        | [] => None
        | e :: r' =>
            if (e =? 117)%N then
              match r' with
              | h1 :: h2 :: h3 :: h4 :: r'' =>
                  match hex4 h1 h2 h3 h4 with
                  | Some u => push u (string_body r'')
                  | None => None
                  end
              | _ => None
              end
            else
              match escape e with
              | Some u => push u (string_body r')
              | None => None
              end
        end
      else if (c <? 32)%N then None
      else push c (string_body r)
  end.

(** The longest run of digits at the head of a text, and the rest. *)
Fixpoint digits (s : jsstring) : jsstring * jsstring :=
  match s with
  | c :: r =>
      if is_digit c then let (d, rest) := digits r in (c :: d, rest)
      else ([], s)
  | [] => ([], [])
  end.

(** One or more digits. *)
Definition digits1 (s : jsstring) : option (jsstring * jsstring) :=
  match digits s with
  | ([], _) => None
  | (d, rest) => Some (d, rest)
  end.

(** A number: an optional minus, then 0 or a digit from 1 to 9 followed
    by digits, then optionally a dot and digits, then optionally e or E,
    a sign and digits. *)
Definition number (s : jsstring) : option (jsstring * jsstring) :=
  let (sign, s1) :=
    match s with
    | c :: r => if (c =? 45)%N then ([c], r) else ([], s)
    | [] => ([], s)
    end in
  let int :=
    match s1 with
    | c :: r =>
        if (c =? 48)%N then Some ([c], r)
        else if is_digit c then let (d, rest) := digits r in Some (c :: d, rest)
        else None
    | [] => None
    end in
  match int with
  | None => None
  | Some (i, s2) =>
      let frac :=
        match s2 with
        | c :: r =>
            if (c =? 46)%N then
              match digits1 r with
              | Some (d, rest) => Some (c :: d, rest)
              | None => None
              end
            else Some ([], s2)
        | [] => Some ([], s2)
        end in
      match frac with
      | None => None
      | Some (f, s3) =>
          let exp :=
            match s3 with
            | c :: r =>
                if (c =? 101)%N || (c =? 69)%N then
                  let (sg, r1) :=
                    match r with
                    | g :: r' =>
                        if (g =? 43)%N || (g =? 45)%N then ([g], r') else ([], r)
                    | [] => ([], r)
                    end in
                  match digits1 r1 with
                  | Some (d, rest) => Some (c :: sg ++ d, rest)
                  | None => None
                  end
                else Some ([], s3)
            | [] => Some ([], s3)
            end in
          match exp with
          | None => None
          | Some (e, s4) => Some (sign ++ i ++ f ++ e, s4)
          end
      end
  end.

(** A value at the head of a text (after white space) and the rest;
    [elements] reads what follows [[] or a comma in an array, [members]
    what follows [{] or a comma in an object.  Of two calls in a row one
    at least reads a character, so twice the length of the text bounds
    their depth. *)
Fixpoint value (fuel : nat) (s : jsstring) {struct fuel}
  : option (t * jsstring) :=
  match fuel with
  | O => None
  | S fuel' =>
      match skip_ws s with
      | [] => None
      | c :: r =>
          if (c =? 34)%N then
            match string_body r with
            | Some (str, rest) => Some (JString str, rest)
            | None => None
            end
          else if (c =? 91)%N then
            match skip_ws r with
            | c' :: r' =>
                if (c' =? 93)%N then Some (JArray [], r')
                else
                  match elements fuel' r with
                  | Some (l, rest) => Some (JArray l, rest)
                  | None => None
                  end
            | [] => None
            end
          else if (c =? 123)%N then
            match skip_ws r with
            | c' :: r' =>
                if (c' =? 125)%N then Some (JObject [], r')
                else
                  match members fuel' r with
                  | Some (l, rest) => Some (JObject l, rest)
                  | None => None
                  end
            | [] => None
            end
          else if startsWith (c :: r) (lit "null")
          then Some (JNull, skipn 4 (c :: r))
          else if startsWith (c :: r) (lit "true")
          then Some (JBool true, skipn 4 (c :: r))
          else if startsWith (c :: r) (lit "false")
          then Some (JBool false, skipn 5 (c :: r))
          else
            match number (c :: r) with
            | Some (n, rest) => Some (JNumber n, rest)
            | None => None
            end
      end
  end

with elements (fuel : nat) (s : jsstring) {struct fuel}
  : option (list t * jsstring) :=
  match fuel with
  | O => None
  | S fuel' =>
      match value fuel' s with
      | Some (v, rest) =>
          match skip_ws rest with
          | c :: r =>
              if (c =? 44)%N then push v (elements fuel' r)
              else if (c =? 93)%N then Some ([v], r)
              else None
          | [] => None
          end
      | None => None
      end
  end

with members (fuel : nat) (s : jsstring) {struct fuel}
  : option (list (jsstring * t) * jsstring) :=
  match fuel with
  | O => None
  | S fuel' =>
      match skip_ws s with
      | q :: r =>
          if (q =? 34)%N then
            match string_body r with
            | Some (key, rest) =>
                match skip_ws rest with
                | colon :: r1 =>
                    if (colon =? 58)%N then
                      match value fuel' r1 with
                      | Some (v, rest') =>
                          match skip_ws rest' with
                          | c :: r2 =>
                              if (c =? 44)%N
                              then push (key, v) (members fuel' r2)
                              else if (c =? 125)%N then Some ([(key, v)], r2)
                              else None
                          | [] => None
                          end
                      | None => None
                      end
                    else None
                | [] => None
                end
            | None => None
            end
          else None
      | [] => None
      end
  end.



End Json.





(** ** Sample values *)

Definition alice : User.t := User.mk 1%Z (lit "alice") (lit "alice@example.org").
Definition bob : User.t := User.mk 2%Z (lit "bob") (lit "bob@example.org").

(** A text message of [author] to [recipient]. *)
Definition sample (i : string) (author : User.t) (recipient : optional Z)
  (body : string) : ChatMessage.t :=
  ChatMessage.mk (Some (lit i)) author (lit body) (lit "2025-01-01T00:00:00Z")
    (Some MessageType.text) None None None None recipient None None None.

Definition nobody : State := {| messages := []; onlineUsers := [] |}.

Definition in_general : Closure :=
  {| user := alice; isDirectMessage := false; selectedUser := None |}.

Definition with_bob : Closure :=
  {| user := alice; isDirectMessage := true; selectedUser := Some bob |}.

(** Direct mode without a selected user. *)
Definition direct_unselected : Closure :=
  {| user := alice; isDirectMessage := true; selectedUser := None |}.

Definition noon : Clock :=
  {| Date_now_toString := lit "1735732800000";
     Date_toISOString := lit "2025-01-01T12:00:00.000Z" |}.

(** A connection on which no frame is JSON. *)
Definition never_json : jsstring -> option ServerEvent.t := fun _ => None.

(** A message addressed to the identifier [0]. *)
Definition to_zero : ChatMessage.t := sample "m0" bob (val 0%Z) "for nobody".

(** A general message of [bob]. *)
Definition from_bob : ChatMessage.t := sample "m1" bob null "hello".

(** A message of [bob] to [alice], and one of [alice] to [bob]. *)
Definition bob_to_alice : ChatMessage.t := sample "m2" bob (val 1%Z) "hi alice".
Definition alice_to_bob : ChatMessage.t := sample "m3" alice (val 2%Z) "hi bob".


Definition thumbs_up : Reaction.t := Reaction.mk [240; 376; 8216]%N [lit "alice"].

(** ** More of [ChatApp.tsx] *)

(** [isUserOnline(userEmail)]:
    [onlineUsers.some(onlineUser => onlineUser.email === userEmail)]. *)
Definition isUserOnline (online : list User.t) (userEmail : jsstring) : bool :=
  existsb (fun onlineUser => str_eqb (User.email onlineUser) userEmail) online.

(** The last list of users a sequence of events carries, if any: [boot]
    and [online_users] are the events that carry one. *)
Fixpoint last_presence (events : list ServerEvent.t) : option (list User.t) :=
  match events with
  | [] => None
  | e :: rest =>
      match last_presence rest with
      | Some us => Some us
      | None =>
          match e with
          | ServerEvent.boot _ us => Some (or_empty us)
          | ServerEvent.online_users us => Some (or_empty us)
          | _ => None
          end
      end
  end.

(** *** Switching conversations *)

Module View.
(** The three pieces of state the two handlers set. *)
Record t : Type := mk {
  selectedUser : option User.t;
  isDirectMessage : bool;
  messages : list ChatMessage.t
}.
End View.

(** [handleUserSelect(user)] *)
Definition handleUserSelect (u : User.t) (v : View.t) : View.t :=
  View.mk (Some u) true [].

(** [handleGeneralChat()] *)
Definition handleGeneralChat (v : View.t) : View.t :=
  View.mk None false [].

(** A click in the sidebar or on the [General Chat] button. *)
Inductive Click : Type :=
| on_user (u : User.t)
| on_general.

Definition click (k : Click) (v : View.t) : View.t :=
  match k with
  | on_user u => handleUserSelect u v
  | on_general => handleGeneralChat v
  end.

Fixpoint clicks (ks : list Click) (v : View.t) : View.t :=
  match ks with
  | [] => v
  | k :: rest => clicks rest (click k v)
  end.

(** The [useState] initial values. *)
Definition first_view : View.t := View.mk None false [].

(** The conversation state a view and the signed-in user make. *)
Definition closure_of (me : User.t) (v : View.t) : Closure :=
  {| user := me;
     isDirectMessage := View.isDirectMessage v;
     selectedUser := View.selectedUser v |}.

(** *** The running client *)

(** The conversation state [ws.onmessage] sees.  The effect that installs
    the handler has [[user, token]] for dependencies: it runs once the
    profile has loaded, when nothing has been clicked yet, and no click
    runs it again.  The handler keeps the [isDirectMessage] and
    [selectedUser] of that render for as long as the component lives. *)
Definition installed_closure (me : User.t) : Closure :=
  closure_of me first_view.

(** The conversation chosen, the messages shown and the users online. *)
Record Client : Type := {
  view : View.t;
  online : list User.t
}.

(** What the client reacts to: a click, a frame that [JSON.parse] reads as
    an event, a frame on which it throws. *)
Inductive Input : Type :=
| clicked (k : Click)
| received (parsed : ServerEvent.t)
| received_text (clk : Clock) (data : jsstring).

(** What [setMessages] and [setOnlineUsers] work on. *)
Definition state_of (cl : Client) : State :=
  {| messages := View.messages (view cl); onlineUsers := online cl |}.

Definition with_state (cl : Client) (st : State) : Client :=
  {| view := View.mk (View.selectedUser (view cl))
               (View.isDirectMessage (view cl)) (messages st);
     online := onlineUsers st |}.

Definition client_step (me : User.t) (i : Input) (cl : Client) : Client :=
  match i with
  | clicked k => {| view := click k (view cl); online := online cl |}
  | received parsed =>
      with_state cl (handle (installed_closure me) parsed (state_of cl))
  | received_text clk data => with_state cl (fallback clk data (state_of cl))
  end.

Fixpoint client_run (me : User.t) (inputs : list Input) (cl : Client) : Client :=
  match inputs with
  | [] => cl
  | i :: rest => client_run me rest (client_step me i cl)
  end.

(** The client when the handler is installed. *)
Definition first_client : Client := {| view := first_view; online := [] |}.

(** *** Expanding long messages *)

(** [Set<number>]: its elements in insertion order, each once. *)
Module NumSet.
Definition t : Type := list nat.
Definition has (s : t) (x : nat) : bool := existsb (Nat.eqb x) s.
Definition delete (s : t) (x : nat) : t := filter (fun y => negb (Nat.eqb x y)) s.
Definition add (s : t) (x : nat) : t := if has s x then s else s ++ [x].
End NumSet.

(** [toggleMessageExpansion(messageIndex)], the function given to
    [setExpandedMessages]. *)
Definition toggleMessageExpansion (messageIndex : nat) (prev : NumSet.t)
  : NumSet.t :=
  let newSet := prev in
  if NumSet.has newSet messageIndex
  then NumSet.delete newSet messageIndex
  else NumSet.add newSet messageIndex.

(** The button under a long message. *)
Inductive ExpandButton : Type := ReadMore | ShowLess.

(** The text of a message and the button next to it:
    [message.content.substring(0, 150) + "..."] with [Read more] for a
    long message that is not expanded, the whole content otherwise, with
    [Show less] when it is long. *)
Definition caption (isExpanded : bool) (content : jsstring)
  : jsstring * option ExpandButton :=
  let isLongMessage := (150 <? List.length content)%nat in
  if isLongMessage && negb isExpanded
  then (firstn 150 content ++ lit "...", Some ReadMore)
  else (content, if isLongMessage && isExpanded then Some ShowLess else None).

(** [message.fileUrl?.startsWith('http') ? message.fileUrl :
     `http://localhost:8000${message.fileUrl}`] *)
Definition media_url (fileUrl : option jsstring) : jsstring :=
  match fileUrl with
  | Some u =>
      if startsWith u (lit "http") then u else lit "http://localhost:8000" ++ u
  | None => lit "http://localhost:8000" ++ lit "undefined"
  end.

(** What [renderMessageContent] shows: the media element with its
    address, if any, and the text with its button, if any. *)
Record Rendered : Type := {
  media : option (MessageType.t * jsstring);
  shown_text : option (jsstring * option ExpandButton)
}.

(** [renderMessageContent(message, messageIndex)] *)
Definition renderMessageContent (expandedMessages : NumSet.t)
  (message : ChatMessage.t) (messageIndex : nat) : Rendered :=
  let isExpanded := NumSet.has expandedMessages messageIndex in
  let with_media (ty : MessageType.t) :=
    {| media := Some (ty, media_url (ChatMessage.fileUrl message));
       shown_text :=
         if str_truthy (ChatMessage.content message)
         then Some (caption isExpanded (ChatMessage.content message))
         else None |} in
  match ChatMessage.messageType message with
  | Some MessageType.image => with_media MessageType.image
  | Some MessageType.video => with_media MessageType.video
  | Some MessageType.file => with_media MessageType.file
  | Some MessageType.text | None =>
      {| media := None;
         shown_text := Some (caption isExpanded (ChatMessage.content message)) |}
  end.

(** ** More of [AuthForm.tsx]: [handleChange] *)

Module AuthFormInput.

Definition field_eqb (a b : AuthForm.field) : bool :=
  match a, b with
  | AuthForm.f_email, AuthForm.f_email
  | AuthForm.f_password, AuthForm.f_password
  | AuthForm.f_username, AuthForm.f_username => true
  | _, _ => false
  end.

(** [formData[name]] *)
Definition get (name : AuthForm.field) (formData : AuthForm.FormData) : jsstring :=
  match name with
  | AuthForm.f_email => AuthForm.email formData
  | AuthForm.f_password => AuthForm.password formData
  | AuthForm.f_username => AuthForm.username formData
  end.

(** [{ ...prev, [name]: value }] on [formData] *)
Definition set (name : AuthForm.field) (value : jsstring)
  (prev : AuthForm.FormData) : AuthForm.FormData :=
  match name with
  | AuthForm.f_email =>
      {| AuthForm.email := value; AuthForm.password := AuthForm.password prev;
         AuthForm.username := AuthForm.username prev |}
  | AuthForm.f_password =>
      {| AuthForm.email := AuthForm.email prev; AuthForm.password := value;
         AuthForm.username := AuthForm.username prev |}
  | AuthForm.f_username =>
      {| AuthForm.email := AuthForm.email prev;
         AuthForm.password := AuthForm.password prev;
         AuthForm.username := value |}
  end.

(** [errors[name]]; [None] is [undefined]. *)
Fixpoint error_of (name : AuthForm.field) (errors : AuthForm.Errors)
  : option string :=
  match errors with
  | [] => None
  | (k, v) :: rest => if field_eqb k name then Some v else error_of name rest
  end.

(** [{ ...prev, [name]: '' }] on [errors]: the key keeps its place, or is
    added last. *)
Fixpoint clear_error (name : AuthForm.field) (prev : AuthForm.Errors)
  : AuthForm.Errors :=
  match prev with
  | [] => [(name, EmptyString)]
  | (k, v) :: rest =>
      if field_eqb k name then (k, EmptyString) :: rest
      else (k, v) :: clear_error name rest
  end.

(** Truthiness of [errors[name]]. *)
Definition has_error (name : AuthForm.field) (errors : AuthForm.Errors) : bool :=
  match error_of name errors with
  | Some EmptyString | None => false
  | Some (String _ _) => true
  end.

(** [handleChange]: [name] and [value] are those of [e.target]. *)
Definition handleChange (name : AuthForm.field) (value : jsstring)
  (st : AuthForm.FormData * AuthForm.Errors) : AuthForm.FormData * AuthForm.Errors :=
  (set name value (fst st),
   if has_error name (snd st) then clear_error name (snd st) else snd st).

End AuthFormInput.

(** ** [AuthContainer] *)

Module AuthContainer.

Record t : Type := mk {
  mode : AuthForm.mode;
  isLoading : bool;
  error : jsstring
}.

(** How the request of [handleAuth] ends: something is thrown ([fetch] or
    [response.json()] fails), an [Error] with its message or another
    value; or the server answers.  Modelled from the spec: the
    authentication service, which is not part of the client; its answer
    carries [access_token] on a login and may carry a [detail] text on a
    refusal. *)
Inductive Outcome : Type :=
| Threw (message : option jsstring)
| Responded (ok : bool) (detail : option jsstring) (access_token : jsstring).

(** [result.detail || 'Authentication failed'] *)
Definition refusal (detail : option jsstring) : jsstring :=
  match detail with
  | Some (c :: d) => c :: d
  | Some [] | None => lit "Authentication failed"
  end.

(** [handleAuth]: the state when it returns, and the token it stores under
    [authToken] and hands to [onAuthSuccess], if it does. *)
Definition handleAuth (s : t) (o : Outcome) : t * option jsstring :=
  match o with
  | Threw (Some message) => (mk (mode s) false message, None)
  | Threw None => (mk (mode s) false (lit "An error occurred"), None)
  | Responded false detail _ => (mk (mode s) false (refusal detail), None)
  | Responded true _ access_token =>
      match mode s with
      | AuthForm.signin => (mk AuthForm.signin false [], Some access_token)
      | AuthForm.signup =>
          (mk AuthForm.signin false
             (lit "Account created successfully! Please sign in."), None)
      end
  end.

(** [toggleMode] *)
Definition toggleMode (s : t) : t :=
  mk (match mode s with
      | AuthForm.signin => AuthForm.signup
      | AuthForm.signup => AuthForm.signin
      end) (isLoading s) [].

(** The path [handleAuth] posts to. *)
Definition endpoint (m : AuthForm.mode) : jsstring :=
  match m with
  | AuthForm.signin => lit "/auth/login"
  | AuthForm.signup => lit "/auth/signup"
  end.

End AuthContainer.

(** ** [page.tsx]: [Home] *)

Module Home.

Record t : Type := mk {
  isAuthenticated : bool;
  token : option jsstring
}.

(** The [useState] initial values. *)
Definition initial : t := mk false None.

(** The mount effect; [storedToken] is
    [localStorage.getItem('authToken')]. *)
Definition mount (storedToken : option jsstring) (h : t) : t :=
  match storedToken with
  | Some (c :: s) => mk true (Some (c :: s))
  | Some [] | None => h
  end.

Definition handleAuthSuccess (newToken : jsstring) (h : t) : t :=
  mk true (Some newToken).

Definition handleLogout (h : t) : t := mk false None.

Inductive Screen : Type :=
| ChatApp (token : jsstring)
| AuthContainer.

(** What [Home] returns: [ChatApp] under [isAuthenticated && token]. *)
Definition render (h : t) : Screen :=
  match isAuthenticated h, token h with
  | true, Some (c :: s) => ChatApp (c :: s)
  | _, _ => AuthContainer
  end.

End Home.

(** The page in its browser: the [authToken] item of [localStorage] and
    the state of [Home]. *)
Record Browser : Type := {
  authToken : option jsstring;
  home : Home.t
}.

(** What happens to a page. *)
Inductive PageEvent : Type :=
| reload                              (* the page is opened again *)
| signed_in (access_token : jsstring) (* [handleAuth] ends a login well *)
| logout                              (* [ChatApp]'s [handleLogout] *)
| profile_rejected.                   (* [fetchUserProfile] fails *)

Definition page_step (e : PageEvent) (b : Browser) : Browser :=
  match e with
  | reload =>
      {| authToken := authToken b;
         home := Home.mount (authToken b) Home.initial |}
  | signed_in access_token =>
      {| authToken := Some access_token;
         home := Home.handleAuthSuccess access_token (home b) |}
  | logout =>
      {| authToken := None; home := Home.handleLogout (home b) |}
  | profile_rejected =>
      {| authToken := authToken b; home := Home.handleLogout (home b) |}
  end.

Fixpoint page_run (es : list PageEvent) (b : Browser) : Browser :=
  match es with
  | [] => b
  | e :: rest => page_run rest (page_step e b)
  end.

(** A browser that has never seen the site. *)
Definition fresh_browser : Browser :=
  {| authToken := None; home := Home.initial |}.

(** * Properties *)

(** ** JavaScript values *)

Lemma str_eqb_eq (a b : jsstring) : str_eqb a b = true <-> a = b.
Proof.
  unfold str_eqb. destruct (list_eq_dec N.eq_dec a b); split; congruence.
Qed.

Lemma str_truthy_false (s : jsstring) : str_truthy s = false <-> s = [].
Proof. destruct s; simpl; split; congruence. Qed.

Lemma trimStart_nil (s : jsstring) :
  trimStart s = [] <-> Forall (fun c => is_white_space c = true) s.
Proof.
  induction s as [|c s IH]; simpl.
  - split; [constructor | reflexivity].
  - destruct (is_white_space c) eqn:E.
    + rewrite IH. split; [now constructor | now inversion 1].
    + split; [discriminate | inversion 1; congruence].
Qed.

Lemma trimStart_head (s r : jsstring) (c : N) :
  trimStart s = c :: r -> is_white_space c = false.
Proof.
  induction s as [|x s IH]; simpl; [discriminate|].
  destruct (is_white_space x) eqn:E; [exact IH|].
  intros H. injection H as <- _. exact E.
Qed.

(** Nothing is left of a string once trimmed exactly when it is made of
    white space only. *)
Lemma trim_nil (s : jsstring) :
  trim s = [] <-> Forall (fun c => is_white_space c = true) s.
Proof.
  unfold trim, trimEnd. rewrite <- trimStart_nil. split.
  - intros H. apply (f_equal (@rev N)) in H. rewrite rev_involutive in H.
    simpl in H. apply trimStart_nil in H.
    destruct (trimStart s) as [|c r] eqn:E; [reflexivity|].
    apply trimStart_head in E.
    apply Forall_rev in H. rewrite rev_involutive in H.
    inversion H; congruence.
  - intros ->. reflexivity.
Qed.

Lemma strict_eq_eq (a b : optional Z) : strict_eq a b = true <-> a = b.
Proof.
  destruct a, b; simpl; split; try congruence.
  - intros H. apply Z.eqb_eq in H. congruence.
  - intros H. injection H as ->. apply Z.eqb_refl.
Qed.

Lemma num_falsy_true (v : optional Z) :
  num_falsy v = true <-> v = undefined \/ v = null \/ v = val 0%Z.
Proof.
  destruct v as [| |n]; simpl.
  - split; auto.
  - split; auto.
  - rewrite Z.eqb_eq. split.
    + intros ->. auto.
    + intros [H|[H|H]]; congruence.
Qed.

Lemma id_is_true (messageId : jsstring) (msg : ChatMessage.t) :
  id_is messageId msg = true <-> ChatMessage.id msg = Some messageId.
Proof.
  unfold id_is. destruct (ChatMessage.id msg) as [i|].
  - rewrite str_eqb_eq. split; congruence.
  - split; congruence.
Qed.

(** ** Which messages a conversation shows *)

Lemma boot_general_true (m : ChatMessage.t) :
  boot_general m = true <-> falsy_recipient m.
Proof.
  unfold boot_general, falsy_recipient, no_recipient.
  rewrite num_falsy_true. tauto.
Qed.

Lemma boot_direct_true (c : Closure) (b : User.t) (m : ChatMessage.t) :
  selectedUser c = Some b ->
  boot_direct c m = true <-> between (User.id (user c)) (User.id b) m.
Proof.
  intros Hb. unfold boot_direct, between, user_id. rewrite Hb. simpl selectedUser_id.
  rewrite orb_true_iff, !andb_true_iff, !strict_eq_eq.
  split; (intros [[H1 H2]|[H1 H2]]; [left|right]; split; congruence).
Qed.

Lemma live_is_boot_direct (c : Closure) (m : ChatMessage.t) :
  isDirectMessage c = true -> live_accepts c m = boot_direct c m.
Proof. intros H. unfold live_accepts, boot_direct. now rewrite H. Qed.

Lemma live_is_boot_general (c : Closure) (m : ChatMessage.t) :
  isDirectMessage c = false -> live_accepts c m = boot_general m.
Proof. intros H. unfold live_accepts, boot_general. now rewrite H. Qed.

(** On every state in which direct mode comes with a selected user, the
    snapshot and the live event keep the same messages. *)
Lemma boot_live_agree (c : Closure) (m : ChatMessage.t) :
  (isDirectMessage c = true -> selectedUser c <> None) ->
  boot_accepts c m = live_accepts c m.
Proof.
  intros H. unfold boot_accepts.
  destruct (isDirectMessage c) eqn:Hd.
  - destruct (selectedUser c) as [u|] eqn:Hs.
    + simpl. symmetry. now apply live_is_boot_direct.
    + now destruct H.
  - simpl. symmetry. now apply live_is_boot_general.
Qed.

Lemma handle_boot_messages (c : Closure) ms us st :
  messages (handle c (ServerEvent.boot ms us) st) =
  filter (boot_accepts c) (or_empty ms).
Proof. reflexivity. Qed.

Lemma handle_message_accepted (c : Closure) m st :
  live_accepts c m = true ->
  handle c (ServerEvent.message m) st =
  {| messages := messages st ++ [m]; onlineUsers := onlineUsers st |}.
Proof. intros H. simpl. now rewrite H. Qed.

Lemma handle_message_rejected (c : Closure) m st :
  live_accepts c m = false -> handle c (ServerEvent.message m) st = st.
Proof. intros H. simpl. now rewrite H. Qed.

(** What [handle] keeps, by the closure it is given.  With direct mode
    off it keeps every message without recipient and none whose
    [recipientId] is a number other than 0, from a snapshot and from a
    [message] event alike; with direct mode on and the user [b] selected it
    keeps exactly the messages whose author and recipient are the user of
    the closure and [b]. *)
Lemma handle_keeps_by_closure (c : Closure) :
  (isDirectMessage c = false ->
   (forall ms us st m,
       In m (messages (handle c (ServerEvent.boot ms us) st)) ->
       In m (or_empty ms) /\ falsy_recipient m) /\
   (forall ms us st m,
       In m (or_empty ms) -> no_recipient m ->
       In m (messages (handle c (ServerEvent.boot ms us) st))) /\
   (forall st m,
       no_recipient m ->
       messages (handle c (ServerEvent.message m) st) = messages st ++ [m]) /\
   (forall st m,
       ~ falsy_recipient m -> handle c (ServerEvent.message m) st = st))
  /\
  (forall b, isDirectMessage c = true -> selectedUser c = Some b ->
   (forall ms us st m,
       In m (messages (handle c (ServerEvent.boot ms us) st)) <->
       In m (or_empty ms) /\ between (User.id (user c)) (User.id b) m) /\
   (forall st m,
       between (User.id (user c)) (User.id b) m ->
       messages (handle c (ServerEvent.message m) st) = messages st ++ [m]) /\
   (forall st m,
       ~ between (User.id (user c)) (User.id b) m ->
       handle c (ServerEvent.message m) st = st)).
Proof.
  split.
  - intros Hg.
    assert (Hboot : forall m, boot_accepts c m = boot_general m).
    { intros m. unfold boot_accepts. now rewrite Hg. }
    repeat split.
    + rewrite handle_boot_messages in H. now apply filter_In in H.
    + rewrite handle_boot_messages in H. apply filter_In in H.
      destruct H as [_ H]. rewrite Hboot in H. now apply boot_general_true.
    + intros ms us st m Hin Hno. rewrite handle_boot_messages.
      apply filter_In. split; [assumption|].
      rewrite Hboot. apply boot_general_true. now left.
    + intros st m Hno. rewrite handle_message_accepted; [reflexivity|].
      rewrite live_is_boot_general by assumption.
      apply boot_general_true. now left.
    + intros st m Hno. apply handle_message_rejected.
      rewrite live_is_boot_general by assumption.
      destruct (boot_general m) eqn:E; [|reflexivity].
      apply boot_general_true in E. contradiction.
  - intros b Hd Hb.
    assert (Hboot : forall m, boot_accepts c m = boot_direct c m).
    { intros m. unfold boot_accepts. now rewrite Hd, Hb. }
    repeat split.
    + rewrite handle_boot_messages in H. now apply filter_In in H.
    + rewrite handle_boot_messages in H. apply filter_In in H.
      destruct H as [_ H]. rewrite Hboot in H.
      now apply (boot_direct_true c m Hb).
    + intros [Hin Hbt]. rewrite handle_boot_messages. apply filter_In.
      split; [assumption|]. rewrite Hboot. now apply (boot_direct_true c m Hb).
    + intros st m Hbt. rewrite handle_message_accepted; [reflexivity|].
      rewrite live_is_boot_direct by assumption.
      now apply (boot_direct_true c m Hb).
    + intros st m Hbt. apply handle_message_rejected.
      rewrite live_is_boot_direct by assumption.
      destruct (boot_direct c m) eqn:E; [|reflexivity].
      apply (boot_direct_true c m Hb) in E. contradiction.
Qed.

(** With direct mode off a snapshot message addressed to identifier 0 is
    kept although its [recipientId] is neither missing nor [null]. *)
Lemma general_filter_keeps_recipient_zero :
  isDirectMessage in_general = false /\
  In to_zero
    (messages (handle in_general (ServerEvent.boot (Some [to_zero]) None) nobody)) /\
  ~ no_recipient to_zero.
Proof.
  split; [reflexivity|]. split.
  - simpl. left. reflexivity.
  - intros [H|H]; discriminate H.
Qed.

(** With direct mode on and no user selected, a general message of
    somebody else is kept from the snapshot and dropped as a live event;
    no click leads to that state. *)
Lemma boot_and_live_differ_without_selection :
  boot_accepts direct_unselected from_bob = true /\
  live_accepts direct_unselected from_bob = false.
Proof. split; reflexivity. Qed.

(** ** Deleting *)

Lemma filter_erased {A : Type} (f : A -> bool) (P : A -> Prop) (l : list A) :
  (forall x, f x = true <-> P x) ->
  erased P l (filter (fun x => negb (f x)) l).
Proof.
  intros Hf. induction l as [|x l IH]; simpl.
  - constructor.
  - destruct (f x) eqn:E; simpl.
    + apply erased_drop; [now apply Hf | exact IH].
    + apply erased_keep; [| exact IH].
      intros HP. apply Hf in HP. congruence.
Qed.

Lemma erased_In {A : Type} (P : A -> Prop) (l l' : list A) :
  erased P l l' -> forall x, In x l' <-> In x l /\ ~ P x.
Proof.
  induction 1 as [|x l l' HP _ IH|x l l' HP _ IH]; intros y; simpl.
  - tauto.
  - rewrite IH. split.
    + tauto.
    + intros [[->|Hin] Hn]; [contradiction | tauto].
  - rewrite IH. split.
    + intros [->|[Hin Hn]]; tauto.
    + intros [[->|Hin] Hn]; tauto.
Qed.

(** C4. Handling a [delete] event takes every message with that id out of
    the list shown and leaves every other message as it is and where it
    is relative to the others; nothing with that id is shown afterwards. *)
Theorem C4_delete_removes_only_that_message
  (c : Closure) (messageId : jsstring) (st : State) :
  let st' := handle c (ServerEvent.delete messageId) st in
  erased (fun m => ChatMessage.id m = Some messageId) (messages st) (messages st')
  /\ (forall m, In m (messages st') <->
                In m (messages st) /\ ChatMessage.id m <> Some messageId)
  /\ onlineUsers st' = onlineUsers st.
Proof.
  simpl.
  assert (E : erased (fun m => ChatMessage.id m = Some messageId) (messages st)
                (filter (fun msg => negb (id_is messageId msg)) (messages st))).
  { apply filter_erased. intros m. apply id_is_true. }
  split; [exact E|]. split; [|reflexivity].
  intros m. apply (erased_In E).
Qed.

(** ** Live messages keep their order *)

Lemma handle_all_app (c : Closure) (e1 e2 : list ServerEvent.t) (st : State) :
  handle_all c (e1 ++ e2) st = handle_all c e2 (handle_all c e1 st).
Proof.
  revert st. induction e1 as [|e e1 IH]; intros st; simpl; [reflexivity|].
  apply IH.
Qed.

(** C8. A run of [message] events under a fixed conversation state leaves
    the messages already shown where they are and puts the accepted ones
    after them in the order of arrival. *)
Theorem C8_messages_appended_in_order
  (c : Closure) (incoming : list ChatMessage.t) (st : State) :
  messages (handle_all c (map ServerEvent.message incoming) st) =
  messages st ++ filter (live_accepts c) incoming
  /\ onlineUsers (handle_all c (map ServerEvent.message incoming) st) =
     onlineUsers st.
Proof.
  revert st. induction incoming as [|m incoming IH]; intros st.
  - simpl. now rewrite app_nil_r.
  - cbn [map handle_all filter].
    destruct (IH (handle c (ServerEvent.message m) st)) as [IHm IHo].
    rewrite IHm, IHo.
    destruct (live_accepts c m) eqn:E.
    + rewrite (handle_message_accepted c m st E). simpl.
      now rewrite <- app_assoc.
    + now rewrite (handle_message_rejected c m st E).
Qed.

(** ** Reactions *)

Lemma id_is_with_reactions (messageId : jsstring) (msg : ChatMessage.t) l :
  id_is messageId (ChatMessage.with_reactions msg l) = id_is messageId msg.
Proof. reflexivity. Qed.

Lemma with_reactions_twice (msg : ChatMessage.t) l1 l2 :
  ChatMessage.with_reactions (ChatMessage.with_reactions msg l1) l2 =
  ChatMessage.with_reactions msg l2.
Proof. reflexivity. Qed.

(** C3 (what the client does). Handling the [reaction] event of a message
    twice, as two attempts to add the same reaction produce it, appends
    the reaction twice: the message then shows two entries for the one
    emoji.  With one message shown and the thumbs-up of alice, the
    reactions shown are the same entry two times. *)
Theorem C3_reaction_event_twice_shows_two_entries
  (c : Closure) (messageId : jsstring) (r : Reaction.t) (st : State) :
  messages (handle c (ServerEvent.reaction messageId r)
              (handle c (ServerEvent.reaction messageId r) st)) =
  map (fun msg =>
         if id_is messageId msg
         then ChatMessage.with_reactions msg
                (or_empty (ChatMessage.reactions msg) ++ [r; r])
         else msg) (messages st)
  /\ map ChatMessage.reactions
       (messages (handle in_general (ServerEvent.reaction (lit "m1") thumbs_up)
                    (handle in_general (ServerEvent.reaction (lit "m1") thumbs_up)
                       {| messages := [from_bob]; onlineUsers := [] |}))) =
     [Some [thumbs_up; thumbs_up]].
Proof.
  split; [|reflexivity].
  simpl. rewrite map_map. apply map_ext. intros msg.
  destruct (id_is messageId msg) eqn:E.
  - rewrite id_is_with_reactions, E, with_reactions_twice. simpl.
    now rewrite <- app_assoc.
  - now rewrite E.
Qed.

(** ** The plain text fallback *)

Lemma fallback_blank (clk : Clock) (data : jsstring) (st : State) :
  trim data = [] -> fallback clk data st = st.
Proof.
  intros H. unfold fallback. now rewrite H.
Qed.

Lemma fallback_text (clk : Clock) (data : jsstring) (st : State) :
  trim data <> [] ->
  fallback clk data st =
  {| messages := messages st ++ [plain_text_message clk data];
     onlineUsers := onlineUsers st |}.
Proof.
  intros H. unfold fallback. destruct (trim data); [contradiction|reflexivity].
Qed.

(** C5 (as amended). A frame whose payload is not JSON and has something
    left once trimmed is not reported as an error: one message is
    appended to the list, with the raw payload as content, type text, no
    recipient and no reply; the users online stay as they are. *)
Theorem C5_unparseable_text_becomes_message
  (JSON_parse : jsstring -> option ServerEvent.t)
  (c : Closure) (clk : Clock) (data : jsstring) (st : State) :
  JSON_parse data = None ->
  trim data <> [] ->
  exists m,
    onmessage JSON_parse c clk data st =
    {| messages := messages st ++ [m]; onlineUsers := onlineUsers st |}
    /\ ChatMessage.content m = data
    /\ ChatMessage.messageType m = Some MessageType.text
    /\ ChatMessage.recipientId m = undefined
    /\ ChatMessage.replyTo m = None.
Proof.
  intros Hp Ht. exists (plain_text_message clk data).
  unfold onmessage. rewrite Hp, (fallback_text clk data st Ht).
  repeat split.
Qed.

Lemma C5_unparseable_text_becomes_message_witness :
  exists m,
    onmessage never_json in_general noon (lit "hello") nobody =
    {| messages := messages nobody ++ [m]; onlineUsers := onlineUsers nobody |}
    /\ ChatMessage.content m = lit "hello"
    /\ ChatMessage.messageType m = Some MessageType.text
    /\ ChatMessage.recipientId m = undefined
    /\ ChatMessage.replyTo m = None.
Proof.
  apply (C5_unparseable_text_becomes_message never_json in_general noon
           (lit "hello") nobody).
  - reflexivity.
  - discriminate.
Defined.

(** A frame that is a single space is not JSON and adds no message: not
    every unparseable frame becomes a message. *)
Lemma C5_blank_frame_adds_nothing :
  ~ (forall (JSON_parse : jsstring -> option ServerEvent.t)
            (c : Closure) (clk : Clock) (data : jsstring) (st : State),
        JSON_parse data = None ->
        exists m, messages (onmessage JSON_parse c clk data st) = messages st ++ [m]).
Proof.
  intros H.
  destruct (H never_json in_general noon [32%N] nobody eq_refl) as [m Hm].
  discriminate Hm.
Qed.

(** C10. When the payload is not JSON and nothing is left of it once
    trimmed, the handler leaves the state as it is; and whatever the
    fallback adds is one message at the end of the list whose author is
    the synthetic user with id 0, name System and email system, never the
    signed-in user or another real one, and whose type is text. *)
Theorem C10_fallback_drops_blank_and_signs_as_System
  (JSON_parse : jsstring -> option ServerEvent.t)
  (c : Closure) (clk : Clock) (data : jsstring) (st : State) :
  JSON_parse data = None ->
  (trim data = [] -> onmessage JSON_parse c clk data st = st)
  /\ (messages (onmessage JSON_parse c clk data st) = messages st
      \/ exists m,
           messages (onmessage JSON_parse c clk data st) = messages st ++ [m]
           /\ ChatMessage.user m = User.mk 0 (lit "System") (lit "system")
           /\ ChatMessage.messageType m = Some MessageType.text).
Proof.
  intros Hp. unfold onmessage. rewrite Hp. split.
  - apply fallback_blank.
  - destruct (list_eq_dec N.eq_dec (trim data) []) as [E|E].
    + left. now rewrite fallback_blank.
    + right. exists (plain_text_message clk data).
      rewrite (fallback_text clk data st E). repeat split.
Qed.

Lemma C10_fallback_drops_blank_and_signs_as_System_witness :
  (trim [32%N; 10%N] = [] ->
   onmessage never_json with_bob noon [32%N; 10%N] nobody = nobody)
  /\ (messages (onmessage never_json with_bob noon [32%N; 10%N] nobody) =
      messages nobody
      \/ exists m,
           messages (onmessage never_json with_bob noon [32%N; 10%N] nobody) =
           messages nobody ++ [m]
           /\ ChatMessage.user m = User.mk 0 (lit "System") (lit "system")
           /\ ChatMessage.messageType m = Some MessageType.text).
Proof.
  apply (C10_fallback_drops_blank_and_signs_as_System never_json with_bob noon
           [32%N; 10%N] nobody).
  reflexivity.
Defined.

(** ** Sending *)

Lemma not_open_false (ws : option WebSocket.t) :
  not_open ws = false <-> ws = Some WebSocket.OPEN.
Proof.
  destruct ws as [[]|]; simpl; split; congruence.
Qed.

Lemma sendMessage_guard (k : Composer) :
  negb (str_truthy (trim (input k))) || not_open (wsRef k) = false <->
  trim (input k) <> [] /\ wsRef k = Some WebSocket.OPEN.
Proof.
  rewrite orb_false_iff, negb_false_iff, not_open_false.
  destruct (trim (input k)); simpl; split; intros [H1 H2]; split;
    congruence.
Qed.

(** C6. [sendMessage] sends nothing when the trimmed input is empty or
    the socket is not open.  Otherwise, in direct mode or when replying,
    it sends exactly one JSON frame: content the trimmed input, type
    text, [replyTo] the id of the message replied to ([null] when no
    message is replied to or it has no id or an empty one), [recipientId]
    the id of the selected user ([null] when no user is selected or the
    id is 0), and no file fields.  Otherwise it sends the trimmed input
    as one raw text frame. *)
Theorem C6_sendMessage_frames (k : Composer) :
  (trim (input k) = [] \/ wsRef k <> Some WebSocket.OPEN ->
   sendMessage k = ([], k))
  /\ (trim (input k) <> [] -> wsRef k = Some WebSocket.OPEN ->
      directMode k = true \/ replyTo k <> None ->
      exists d,
        fst (sendMessage k) = [Json d]
        /\ MessageData.content d = trim (input k)
        /\ MessageData.messageType d = MessageType.text
        /\ MessageData.replyTo d =
           match replyTo k with
           | Some r =>
               match ChatMessage.id r with
               | Some (u :: i) => val (u :: i)
               | Some [] | None => null
               end
           | None => null
           end
        /\ MessageData.recipientId d =
           match selected k with
           | Some u => if (User.id u =? 0)%Z then null else val (User.id u)
           | None => null
           end
        /\ MessageData.fileUrl d = undefined
        /\ MessageData.fileName d = undefined
        /\ MessageData.fileSize d = undefined)
  /\ (trim (input k) <> [] -> wsRef k = Some WebSocket.OPEN ->
      directMode k = false -> replyTo k = None ->
      fst (sendMessage k) = [Raw (trim (input k))]).
Proof.
  repeat split.
  - intros H. unfold sendMessage.
    destruct (negb (str_truthy (trim (input k))) || not_open (wsRef k)) eqn:G;
      [reflexivity|].
    apply sendMessage_guard in G. destruct G as [G1 G2].
    destruct H; contradiction.
  - intros Ht Ho Hm. unfold sendMessage.
    rewrite (proj2 (sendMessage_guard k) (conj Ht Ho)).
    assert (M : directMode k || truthy (replyTo k) = true).
    { destruct Hm as [->|Hr]; [reflexivity|].
      destruct (replyTo k); [apply orb_true_r | contradiction]. }
    rewrite M. eexists. split; [reflexivity|]. simpl.
    repeat split.
    + unfold replyTo_id. destruct (replyTo k) as [r|]; [|reflexivity].
      destruct (ChatMessage.id r) as [[|u i]|]; reflexivity.
    + destruct (selected k) as [u|]; [|reflexivity].
      unfold num_or_null. simpl. now destruct (User.id u =? 0)%Z.
  - intros Ht Ho Hd Hr. unfold sendMessage.
    rewrite (proj2 (sendMessage_guard k) (conj Ht Ho)), Hd, Hr. reflexivity.
Qed.

(** Alice, next to bob, answers one of his messages; in general chat she
    just types; and with the socket closed nothing leaves. *)
Lemma C6_sendMessage_frames_witness :
  (exists d,
      fst (sendMessage {| wsRef := Some WebSocket.OPEN; directMode := true;
                          selected := Some bob; replyTo := Some bob_to_alice;
                          input := lit "  fine  " |}) = [Json d]
      /\ MessageData.content d = lit "fine"
      /\ MessageData.replyTo d = val (lit "m2")
      /\ MessageData.recipientId d = val 2%Z)
  /\ fst (sendMessage {| wsRef := Some WebSocket.OPEN; directMode := false;
                         selected := None; replyTo := None;
                         input := lit " hello all" |}) = [Raw (lit "hello all")]
  /\ fst (sendMessage {| wsRef := Some WebSocket.CLOSED; directMode := false;
                         selected := None; replyTo := None;
                         input := lit "lost" |}) = [].
Proof.
  split; [|split].
  - destruct (C6_sendMessage_frames
                {| wsRef := Some WebSocket.OPEN; directMode := true;
                   selected := Some bob; replyTo := Some bob_to_alice;
                   input := lit "  fine  " |}) as (_ & H & _).
    destruct H as (d & Hd & Hc & _ & Hr & Hi & _).
    + discriminate.
    + reflexivity.
    + left. reflexivity.
    + exists d. repeat split; assumption.
  - destruct (C6_sendMessage_frames
                {| wsRef := Some WebSocket.OPEN; directMode := false;
                   selected := None; replyTo := None;
                   input := lit " hello all" |}) as (_ & _ & H).
    apply H; [discriminate | reflexivity | reflexivity | reflexivity].
  - destruct (C6_sendMessage_frames
                {| wsRef := Some WebSocket.CLOSED; directMode := false;
                   selected := None; replyTo := None;
                   input := lit "lost" |}) as (H & _).
    rewrite H; [reflexivity|]. right. discriminate.
Defined.








(** ** The regular expression matcher *)

Section Matcher.
Import Regex.

Lemma matches_nonempty (r : Regex.t) (s : jsstring) :
  matches r s -> s <> [].
Proof.
  induction 1 as [p c Hp|r1 r2 s1 s2 _ IH1 _ _|r s _ IH|r s1 s2 _ IH1 _ _].
  - discriminate.
  - destruct s1; [contradiction | discriminate].
  - exact IH.
  - destruct s1; [contradiction | discriminate].
Qed.

Lemma plus_loop_decides (r0 : Regex.t) :
  decides (go r0) (matches r0) ->
  forall fuel s k,
    (List.length s <= fuel)%nat ->
    plus_loop (go r0) fuel s k = true <->
    exists s1 s2, s = s1 ++ s2 /\ matches (Plus r0) s1 /\ k s2 = true.
Proof.
  intros Hstep fuel.
  induction fuel as [|fuel IH]; intros s k Hlen; simpl; rewrite (Hstep s _).
  - split.
    + intros (s1 & s2 & -> & Hm & Hk).
      exists s1, s2. repeat split; [now apply m_plus_one | exact Hk].
    + intros (s1 & s2 & -> & Hm & Hk).
      apply matches_nonempty in Hm.
      destruct s1; [contradiction | simpl in Hlen; lia].
  - split.
    + intros (s1 & s2 & -> & Hm & Hk).
      apply orb_true_iff in Hk. destruct Hk as [Hk|Hk].
      * apply IH in Hk.
        -- destruct Hk as (t1 & t2 & -> & Hm' & Hk).
           exists (s1 ++ t1), t2. rewrite app_assoc.
           repeat split; [now apply m_plus_more | exact Hk].
        -- pose proof (matches_nonempty Hm) as Hne.
           rewrite length_app in Hlen.
           destruct s1; [contradiction | simpl in Hlen; lia].
      * exists s1, s2. repeat split; [now apply m_plus_one | exact Hk].
    + intros (s1 & s2 & -> & Hm & Hk).
      inversion Hm as [| |r s Hr|r a b Ha Hb]; subst.
      * exists s1, s2. repeat split; [assumption|].
        rewrite Hk. apply orb_true_r.
      * exists a, (b ++ s2). rewrite <- app_assoc.
        repeat split; [assumption|].
        apply orb_true_iff. left. apply IH.
        -- pose proof (matches_nonempty Ha) as Hne.
           rewrite <- app_assoc, length_app in Hlen.
           destruct a; [contradiction | simpl in Hlen; lia].
        -- exists b, s2. repeat split; assumption.
Qed.

(** The matcher decides the language of its regular expression. *)
Lemma go_decides (r : Regex.t) : decides (go r) (matches r).
Proof.
  induction r as [p|r1 IH1 r2 IH2|r0 IH]; intros s k; simpl.
  - destruct s as [|c s'].
    + split; [discriminate|].
      intros (s1 & s2 & E & Hm & _). inversion Hm; subst. discriminate.
    + rewrite andb_true_iff. split.
      * intros [Hp Hk]. exists [c], s'.
        repeat split; [now apply m_class | exact Hk].
      * intros (s1 & s2 & E & Hm & Hk). inversion Hm; subst.
        simpl in E. injection E as -> ->. now split.
  - rewrite (IH1 s _). split.
    + intros (s1 & s2 & -> & Hm & Hk). apply IH2 in Hk.
      destruct Hk as (t1 & t2 & -> & Hm' & Hk).
      exists (s1 ++ t1), t2. rewrite app_assoc.
      repeat split; [now apply m_cat | exact Hk].
    + intros (s1 & s2 & -> & Hm & Hk). inversion Hm; subst.
      exists s0, (s3 ++ s2). rewrite <- app_assoc.
      repeat split; [assumption|].
      apply IH2. exists s3, s2. repeat split; assumption.
  - apply plus_loop_decides; [exact IH | apply le_n].
Qed.

Lemma match_here_true (r : Regex.t) (s : jsstring) :
  match_here r s = true <-> exists m post, s = m ++ post /\ matches r m.
Proof.
  unfold match_here. rewrite (go_decides r s _). split.
  - intros (m & post & E & Hm & _). now exists m, post.
  - intros (m & post & E & Hm). now exists m, post.
Qed.

(** [test] finds a match exactly when some substring is in the
    language. *)
Lemma test_true (r : Regex.t) (s : jsstring) :
  test r s = true <-> found r s.
Proof.
  unfold found. induction s as [|c s IH].
  - simpl. rewrite orb_false_r, match_here_true. split.
    + intros (m & post & E & Hm). now exists [], m, post.
    + intros (pre & m & post & E & Hm).
      destruct pre; [now exists m, post | discriminate].
  - cbn [test]. rewrite orb_true_iff, match_here_true, IH. split.
    + intros [(m & post & E & Hm)|(pre & m & post & E & Hm)].
      * now exists [], m, post.
      * exists (c :: pre), m, post. simpl. now rewrite E.
    + intros (pre & m & post & E & Hm). destruct pre as [|c' pre].
      * left. now exists m, post.
      * right. simpl in E. injection E as _ E. now exists pre, m, post.
Qed.

(** One or more code units of a class. *)
Lemma plus_class (p : N -> bool) (s : jsstring) :
  matches (Plus (Class p)) s <-> s <> [] /\ Forall (fun c => p c = true) s.
Proof.
  split.
  - intros H. split; [now apply matches_nonempty in H|].
    remember (Plus (Class p)) as r eqn:Er.
    induction H as [| |r s Hr _|r s1 s2 Hr _ _ IH]; try discriminate.
    + injection Er as ->. inversion Hr; subst. now constructor.
    + injection Er as ->. inversion Hr; subst. simpl.
      constructor; [assumption | now apply IH].
  - intros [Hne Hall]. induction Hall as [|c s Hc Hall IH]; [contradiction|].
    destruct s as [|c' s'].
    + apply m_plus_one. now apply m_class.
    + apply (m_plus_more (s1 := [c]) (s2 := c' :: s')).
      * now apply m_class.
      * apply IH. discriminate.
Qed.

End Matcher.

(** ** The sign-in and sign-up form *)

Section Form.
Import AuthForm.

(** What [/\S+@\S+\.\S+/] looks for: somewhere in the text, an [@] and
    later a dot, with at least one character that is not white space
    before the [@], between the two, and after the dot, and no white
    space in those three stretches. *)
Lemma email_re_found (s : jsstring) :
  Regex.found email_re s <->
  exists pre a b c post,
    s = pre ++ a ++ [64%N] ++ b ++ [46%N] ++ c ++ post
    /\ a <> [] /\ b <> [] /\ c <> []
    /\ Forall (fun x => is_white_space x = false) (a ++ b ++ c).
Proof.
  unfold Regex.found, email_re, Regex.NonSpace, Regex.Chr. split.
  - intros (pre & m & post & -> & Hm).
    inversion Hm as [|r1 r2 a m1 Ha Hm1| |]; subst.
    inversion Hm1 as [|r1 r2 at_ m2 Hat Hm2| |]; subst.
    inversion Hm2 as [|r1 r2 b m3 Hb Hm3| |]; subst.
    inversion Hm3 as [|r1 r2 dot c Hdot Hc| |]; subst.
    inversion Hat as [p x Hx| | |]; subst. apply N.eqb_eq in Hx. subst x.
    inversion Hdot as [p x Hx| | |]; subst. apply N.eqb_eq in Hx. subst x.
    apply plus_class in Ha, Hb, Hc.
    destruct Ha as [Ha Fa], Hb as [Hb Fb], Hc as [Hc Fc].
    exists pre, a, b, c, post. repeat split; try assumption.
    + now rewrite <- !app_assoc.
    + rewrite !Forall_app. repeat split;
        (eapply Forall_impl; [|eassumption]); intros x Hx;
        now apply negb_true_iff in Hx.
  - intros (pre & a & b & c & post & -> & Ha & Hb & Hc & Hall).
    rewrite !Forall_app in Hall. destruct Hall as (Fa & Fb & Fc).
    assert (P : forall l, l <> [] ->
                Forall (fun x => is_white_space x = false) l ->
                Regex.matches
                  (Regex.Plus (Regex.Class (fun x => negb (is_white_space x)))) l).
    { intros l Hl Fl. apply plus_class. split; [assumption|].
      eapply Forall_impl; [|eassumption]. intros x Hx. now rewrite Hx. }
    exists pre, (a ++ [64%N] ++ b ++ [46%N] ++ c), post. split.
    + now rewrite <- !app_assoc.
    + apply Regex.m_cat; [now apply P|].
      apply Regex.m_cat; [apply Regex.m_class; apply N.eqb_refl|].
      apply Regex.m_cat; [now apply P|].
      apply Regex.m_cat; [apply Regex.m_class; apply N.eqb_refl|].
      now apply P.
Qed.

Lemma email_errors_none (formData : FormData) :
  email_errors formData = [] <->
  email formData <> [] /\ Regex.found email_re (email formData).
Proof.
  unfold email_errors. rewrite <- test_true.
  destruct (email formData) as [|c s] eqn:E.
  - simpl. split; [discriminate | intros [H _]; contradiction].
  - cbn [str_truthy negb].
    destruct (Regex.test email_re (c :: s)); cbn [negb].
    + split; [intros _; split; [discriminate|reflexivity] | reflexivity].
    + split; [discriminate | intros [_ H]; discriminate].
Qed.

Lemma password_errors_none (formData : FormData) :
  password_errors formData = [] <-> (6 <= List.length (password formData))%nat.
Proof.
  unfold password_errors.
  destruct (password formData) as [|c s] eqn:E.
  - simpl. split; [discriminate | lia].
  - cbn [str_truthy negb].
    destruct (List.length (c :: s) <? 6)%nat eqn:L.
    + apply Nat.ltb_lt in L. split; [discriminate | lia].
    + apply Nat.ltb_ge in L. split; [intros _; exact L | reflexivity].
Qed.

Lemma username_errors_none (m : mode) (formData : FormData) :
  username_errors m formData = [] <->
  (m = signup ->
   username formData <> [] /\ (3 <= List.length (username formData))%nat).
Proof.
  unfold username_errors. destruct m; simpl.
  - split; [discriminate | reflexivity].
  - destruct (username formData) as [|c s] eqn:E.
    + simpl. split; [discriminate|]. intros H.
      destruct (H eq_refl) as [H' _]. contradiction.
    + cbn [str_truthy negb].
      destruct (List.length (c :: s) <? 3)%nat eqn:L.
      * apply Nat.ltb_lt in L. split; [discriminate|]. intros H.
        destruct (H eq_refl) as [_ H']. lia.
      * apply Nat.ltb_ge in L.
        split; [intros _ _; split; [discriminate | exact L] | reflexivity].
Qed.

Lemma validateForm_true (m : mode) (formData : FormData) :
  snd (validateForm m formData) = true <->
  email_errors formData = [] /\ password_errors formData = [] /\
  username_errors m formData = [].
Proof.
  unfold validateForm. cbn [snd]. rewrite Nat.eqb_eq, length_zero_iff_nil.
  split.
  - intros H. apply app_eq_nil in H. destruct H as [H1 H].
    apply app_eq_nil in H. tauto.
  - intros (-> & -> & ->). reflexivity.
Qed.

(** C9. The form calls [onSubmit] exactly when the email is not empty and
    matches [\S+@\S+\.\S+], the password has at least 6 characters and,
    in sign-up mode only, the username is not empty and has at least 3;
    what it submits is the email and the password, with the username in
    sign-up mode and without any in sign-in mode. *)
Theorem C9_form_submits_iff_valid (m : mode) (formData : FormData) :
  ((exists submitData, handleSubmit m formData = Some submitData) <->
   email formData <> [] /\ Regex.found email_re (email formData)
   /\ (6 <= List.length (password formData))%nat
   /\ (m = signup ->
       username formData <> [] /\ (3 <= List.length (username formData))%nat))
  /\ (forall submitData,
         handleSubmit m formData = Some submitData ->
         sd_email submitData = email formData
         /\ sd_password submitData = password formData
         /\ sd_username submitData =
            match m with
            | signin => None
            | signup => Some (username formData)
            end).
Proof.
  unfold handleSubmit. split.
  - pose proof (validateForm_true m formData) as V.
    rewrite email_errors_none, password_errors_none, username_errors_none in V.
    destruct (snd (validateForm m formData)).
    + split; [intros _; tauto | intros _; eexists; reflexivity].
    + split; [intros [d H]; discriminate|].
      intros H. assert (F : false = true) by tauto. discriminate F.
  - intros d H. destruct (snd (validateForm m formData)); [|discriminate].
    injection H as <-. destruct m; repeat split.
Qed.

End Form.

(** Signing in as alice: the form submits, and what it submits has no
    username. *)
Lemma C9_form_submits_iff_valid_witness :
  (exists submitData,
      AuthForm.handleSubmit AuthForm.signin
        {| AuthForm.email := lit "alice@example.org";
           AuthForm.password := lit "secret1";
           AuthForm.username := [] |} = Some submitData)
  /\ AuthForm.sd_username
       {| AuthForm.sd_email := lit "alice@example.org";
          AuthForm.sd_password := lit "secret1";
          AuthForm.sd_username := None |} = None.
Proof.
  destruct (C9_form_submits_iff_valid AuthForm.signin
              {| AuthForm.email := lit "alice@example.org";
                 AuthForm.password := lit "secret1";
                 AuthForm.username := [] |}) as [Hiff Hdata].
  split.
  - apply Hiff. split; [discriminate|]. split; [|split].
    + apply test_true. reflexivity.
    + simpl. lia.
    + discriminate.
  - apply Hdata. reflexivity.
Defined.

(** * More properties of the chat component *)

(** ** Events in sequence *)

Lemma state_eta (st : State) :
  {| messages := messages st; onlineUsers := onlineUsers st |} = st.
Proof. now destruct st. Qed.

Lemma handle_all_message_events (c : Closure) (incoming : list ChatMessage.t)
  (st : State) :
  handle_all c (map ServerEvent.message incoming) st =
  {| messages := messages st ++ filter (live_accepts c) incoming;
     onlineUsers := onlineUsers st |}.
Proof.
  revert st. induction incoming as [|m incoming IH]; intros st.
  - simpl. rewrite app_nil_r. symmetry. apply state_eta.
  - cbn [map handle_all filter]. rewrite IH.
    destruct (live_accepts c m) eqn:E.
    + rewrite (handle_message_accepted c m st E). simpl.
      now rewrite <- app_assoc.
    + now rewrite (handle_message_rejected c m st E).
Qed.

(** X1. In a conversation state that has a selected user whenever direct
    mode is on, receiving messages one by one after an empty snapshot
    leaves the client in the same state as receiving them all in the
    snapshot. *)
Theorem X1_snapshot_equals_replay
  (c : Closure) (history : list ChatMessage.t) (us : option (list User.t))
  (st : State) :
  (isDirectMessage c = true -> exists b, selectedUser c = Some b) ->
  handle_all c (map ServerEvent.message history)
    (handle c (ServerEvent.boot (Some []) us) st) =
  handle c (ServerEvent.boot (Some history) us) st.
Proof.
  intros H. rewrite handle_all_message_events.
  unfold handle, setOnlineUsers, setMessages. simpl.
  f_equal. apply filter_ext. intros m. symmetry. apply boot_live_agree.
  intros Hd. destruct (H Hd) as [b Hb]. congruence.
Qed.

Lemma X1_snapshot_equals_replay_witness :
  handle_all with_bob (map ServerEvent.message [from_bob; bob_to_alice; alice_to_bob])
    (handle with_bob (ServerEvent.boot (Some []) None) nobody) =
  handle with_bob
    (ServerEvent.boot (Some [from_bob; bob_to_alice; alice_to_bob]) None) nobody.
Proof.
  apply (X1_snapshot_equals_replay with_bob
           [from_bob; bob_to_alice; alice_to_bob] None nobody).
  intros _. exists bob. reflexivity.
Defined.

(** ** Reactions and deletions *)

Lemma map_id_on {A : Type} (f : A -> A) (l : list A) :
  (forall x, In x l -> f x = x) -> map f l = l.
Proof.
  intros H. induction l as [|x l IH]; simpl; [reflexivity|].
  rewrite H by (now left). f_equal. apply IH. intros y Hy. apply H. now right.
Qed.

Lemma filter_all {A : Type} (f : A -> bool) (l : list A) :
  (forall x, In x l -> f x = true) -> filter f l = l.
Proof.
  intros H. induction l as [|x l IH]; simpl; [reflexivity|].
  rewrite H by (now left). f_equal. apply IH. intros y Hy. apply H. now right.
Qed.

Lemma id_is_false (messageId : jsstring) (msg : ChatMessage.t) :
  ChatMessage.id msg <> Some messageId -> id_is messageId msg = false.
Proof.
  intros H. destruct (id_is messageId msg) eqn:E; [|reflexivity].
  apply id_is_true in E. contradiction.
Qed.

(** X2. A [reaction] event changes nothing but the reactions of the
    messages with its id: the list keeps its length and order, every
    message keeps all its other fields, the users online stay; and when no
    message shown has that id, the state is left exactly as it was. *)
Theorem X2_reaction_touches_only_reactions
  (c : Closure) (messageId : jsstring) (r : Reaction.t) (st : State) :
  let st' := handle c (ServerEvent.reaction messageId r) st in
  map (fun m => ChatMessage.with_reactions m []) (messages st') =
  map (fun m => ChatMessage.with_reactions m []) (messages st)
  /\ onlineUsers st' = onlineUsers st
  /\ (forall m, In m (messages st) -> ChatMessage.id m <> Some messageId ->
                In m (messages st'))
  /\ ((forall m, In m (messages st) -> ChatMessage.id m <> Some messageId) ->
      st' = st).
Proof.
  simpl. repeat split.
  - rewrite map_map. apply map_ext. intros m.
    now destruct (id_is messageId m).
  - intros m Hin Hid. apply in_map_iff. exists m. split; [|assumption].
    now rewrite (id_is_false _ Hid).
  - intros H. unfold setMessages. rewrite map_id_on; [apply state_eta|].
    intros m Hin. now rewrite (id_is_false _ (H m Hin)).
Qed.

Lemma X2_reaction_touches_only_reactions_witness :
  handle in_general (ServerEvent.reaction (lit "m9") thumbs_up)
    {| messages := [from_bob; bob_to_alice]; onlineUsers := [bob] |} =
  {| messages := [from_bob; bob_to_alice]; onlineUsers := [bob] |}.
Proof.
  destruct (X2_reaction_touches_only_reactions in_general (lit "m9") thumbs_up
              {| messages := [from_bob; bob_to_alice]; onlineUsers := [bob] |})
    as (_ & _ & _ & H).
  apply H. intros m [<-|[<-|[]]]; discriminate.
Defined.

Lemma filter_filter {A : Type} (f g : A -> bool) (l : list A) :
  filter f (filter g l) = filter (fun x => g x && f x) l.
Proof.
  induction l as [|x l IH]; simpl; [reflexivity|].
  destruct (g x); simpl; [destruct (f x)|]; now rewrite IH.
Qed.

(** X3. Deleting is idempotent, two deletions can be handled in either
    order, and a [delete] event for an id that no message shown has leaves
    the state as it was. *)
Theorem X3_delete_idempotent_and_commutes
  (c : Closure) (a b : jsstring) (st : State) :
  handle c (ServerEvent.delete a) (handle c (ServerEvent.delete a) st) =
  handle c (ServerEvent.delete a) st
  /\ handle c (ServerEvent.delete a) (handle c (ServerEvent.delete b) st) =
     handle c (ServerEvent.delete b) (handle c (ServerEvent.delete a) st)
  /\ ((forall m, In m (messages st) -> ChatMessage.id m <> Some a) ->
      handle c (ServerEvent.delete a) st = st).
Proof.
  simpl. unfold setMessages. simpl. repeat split.
  - f_equal. rewrite filter_filter. apply filter_ext. intros m.
    now destruct (id_is a m).
  - f_equal. rewrite !filter_filter. apply filter_ext. intros m.
    apply andb_comm.
  - intros H. rewrite filter_all; [apply state_eta|].
    intros m Hin. now rewrite (id_is_false _ (H m Hin)).
Qed.

Lemma X3_delete_idempotent_and_commutes_witness :
  handle in_general (ServerEvent.delete (lit "m9"))
    {| messages := [from_bob; bob_to_alice]; onlineUsers := [bob] |} =
  {| messages := [from_bob; bob_to_alice]; onlineUsers := [bob] |}.
Proof.
  destruct (X3_delete_idempotent_and_commutes in_general (lit "m9") (lit "m9")
              {| messages := [from_bob; bob_to_alice]; onlineUsers := [bob] |})
    as (_ & _ & H).
  apply H. intros m [<-|[<-|[]]]; discriminate.
Defined.

(** X4. A deletion wins over a reaction to the same message whichever
    comes first: reacting and then deleting, or deleting and then
    reacting, leaves the state a deletion alone leaves. *)
Theorem X4_delete_absorbs_reaction
  (c : Closure) (messageId : jsstring) (r : Reaction.t) (st : State) :
  handle c (ServerEvent.delete messageId)
    (handle c (ServerEvent.reaction messageId r) st) =
  handle c (ServerEvent.delete messageId) st
  /\ handle c (ServerEvent.reaction messageId r)
       (handle c (ServerEvent.delete messageId) st) =
     handle c (ServerEvent.delete messageId) st.
Proof.
  simpl. unfold setMessages. simpl. split; f_equal.
  - induction (messages st) as [|m l IH]; simpl; [reflexivity|].
    destruct (id_is messageId m) eqn:E; simpl.
    + rewrite id_is_with_reactions, E. simpl. exact IH.
    + rewrite E. simpl. now rewrite IH.
  - apply map_id_on. intros m Hin. apply filter_In in Hin.
    destruct Hin as [_ Hin]. apply negb_true_iff in Hin. now rewrite Hin.
Qed.

(** X5. A message without an id can be neither deleted nor given a
    reaction: as long as no new snapshot arrives it stays in the list,
    unchanged, whatever events are handled. *)
Theorem X5_message_without_id_stays
  (c : Closure) (events : list ServerEvent.t) (st : State) (m : ChatMessage.t) :
  (forall ms us, ~ In (ServerEvent.boot ms us) events) ->
  ChatMessage.id m = None ->
  In m (messages st) ->
  In m (messages (handle_all c events st)).
Proof.
  intros Hboot Hid. revert st.
  induction events as [|e events IH]; intros st Hin; [exact Hin|].
  cbn [handle_all]. apply IH.
  - intros ms us H. apply (Hboot ms us). now right.
  - destruct e as [ms us|m'|us|mid r|mid|d]; simpl.
    + exfalso. apply (Hboot ms us). now left.
    + destruct (live_accepts c m'); [|exact Hin].
      simpl. apply in_or_app. now left.
    + exact Hin.
    + apply in_map_iff. exists m. split; [|exact Hin].
      rewrite id_is_false; [reflexivity | congruence].
    + apply filter_In. split; [exact Hin|].
      rewrite id_is_false; [reflexivity | congruence].
    + exact Hin.
Qed.

(** A plain message that arrived without an id. *)
Lemma X5_message_without_id_stays_witness :
  In (ChatMessage.mk None bob (lit "hi") [] None None None None None null
        None None None)
    (messages
       (handle_all in_general
          [ServerEvent.delete []; ServerEvent.reaction [] thumbs_up;
           ServerEvent.message from_bob]
          {| messages := [ChatMessage.mk None bob (lit "hi") [] None None None
                            None None null None None None];
             onlineUsers := [] |})).
Proof.
  apply X5_message_without_id_stays.
  - intros ms us [H|[H|[H|[]]]]; discriminate H.
  - reflexivity.
  - left. reflexivity.
Defined.

(** X6. Who is online is decided by the last [boot] or [online_users]
    event alone: after any sequence of events the list of users online is
    the one that event carried (the empty list when it carried none), and
    the list is the old one when there was no such event; messages,
    reactions, deletions and errors never change it. *)
Theorem X6_presence_is_last_announcement
  (c : Closure) (events : list ServerEvent.t) (st : State) :
  onlineUsers (handle_all c events st) =
  match last_presence events with
  | Some us => us
  | None => onlineUsers st
  end.
Proof.
  revert st. induction events as [|e events IH]; intros st; [reflexivity|].
  cbn [handle_all last_presence]. rewrite IH.
  destruct (last_presence events); [reflexivity|].
  destruct e as [ms us|m'|us|mid r|mid|d]; simpl; try reflexivity.
  now destruct (live_accepts c m').
Qed.

(** ** The whole handler on a stream of frames *)

Lemma with_reactions_recipient (m : ChatMessage.t) l :
  falsy_recipient (ChatMessage.with_reactions m l) <-> falsy_recipient m.
Proof. reflexivity. Qed.

Lemma general_handle_keeps_general (c : Closure) (parsed : ServerEvent.t)
  (st : State) :
  isDirectMessage c = false ->
  Forall falsy_recipient (messages st) ->
  Forall falsy_recipient (messages (handle c parsed st)).
Proof.
  intros Hc Hst.
  destruct parsed as [ms us|m'|us|mid r|mid|d]; simpl.
  - apply Forall_forall. intros m Hm. apply filter_In in Hm.
    destruct Hm as [_ Hm]. unfold boot_accepts in Hm. rewrite Hc in Hm.
    now apply boot_general_true.
  - destruct (live_accepts c m') eqn:E; [|exact Hst]. simpl.
    apply Forall_app. split; [exact Hst|].
    constructor; [|constructor].
    rewrite live_is_boot_general in E by exact Hc. now apply boot_general_true.
  - exact Hst.
  - apply Forall_forall. intros m Hm. apply in_map_iff in Hm.
    destruct Hm as (m0 & <- & Hm0).
    rewrite Forall_forall in Hst. specialize (Hst m0 Hm0).
    now destruct (id_is mid m0).
  - apply Forall_forall. intros m Hm. apply filter_In in Hm.
    rewrite Forall_forall in Hst. apply Hst. tauto.
  - exact Hst.
Qed.

Lemma fallback_keeps_general (clk : Clock) (data : jsstring) (st : State) :
  Forall falsy_recipient (messages st) ->
  Forall falsy_recipient (messages (fallback clk data st)).
Proof.
  intros Hst. unfold fallback.
  destruct (0 <? List.length (trim data))%nat; [|exact Hst].
  simpl. apply Forall_app. split; [exact Hst|].
  constructor; [|constructor]. left. now left.
Qed.

Lemma client_step_keeps_general (me : User.t) (i : Input) (cl : Client) :
  Forall falsy_recipient (View.messages (view cl)) ->
  Forall falsy_recipient (View.messages (view (client_step me i cl))).
Proof.
  intros H. destruct i as [k|parsed|clk data]; simpl.
  - destruct k; constructor.
  - now apply general_handle_keeps_general.
  - now apply fallback_keeps_general.
Qed.

(** X7. The handler of the socket keeps the conversation state of the
    first render, so whatever the user clicks and whatever frames arrive
    (events or text that is not JSON, in any order), every message in the
    list has a [recipientId] that is missing, [null] or 0, also while a
    direct conversation is open: a message addressed to a user whose id
    is not 0 is never shown. *)
Theorem X7_client_shows_only_general_messages
  (me : User.t) (inputs : list Input) :
  Forall falsy_recipient
    (View.messages (view (client_run me inputs first_client))).
Proof.
  assert (G : forall cl,
             Forall falsy_recipient (View.messages (view cl)) ->
             Forall falsy_recipient
               (View.messages (view (client_run me inputs cl)))).
  { induction inputs as [|i inputs IH]; intros cl H; [exact H|].
    cbn [client_run]. apply IH. now apply client_step_keeps_general. }
  apply G. constructor.
Qed.

(** ** Switching conversations *)

Lemma click_consistent (k : Click) (v : View.t) :
  View.isDirectMessage (click k v) = true <->
  exists u, View.selectedUser (click k v) = Some u.
Proof.
  destruct k as [u|]; simpl.
  - split; [intros _; now exists u | reflexivity].
  - split; [discriminate | intros [u H]; discriminate].
Qed.

Lemma clicks_last (ks : list Click) (k : Click) (v : View.t) :
  clicks (ks ++ [k]) v = click k (clicks ks v).
Proof.
  revert v. induction ks as [|k0 ks IH]; intros v; [reflexivity|].
  simpl. apply IH.
Qed.

Lemma clicks_consistent (ks : list Click) :
  View.isDirectMessage (clicks ks first_view) = true <->
  exists u, View.selectedUser (clicks ks first_view) = Some u.
Proof.
  destruct ks as [|k ks] using rev_ind.
  - simpl. split; [discriminate | intros [u H]; discriminate].
  - rewrite clicks_last. apply click_consistent.
Qed.

(** C2. In every conversation state of the client, that is the first one
    and every one that clicks on users and on General Chat lead to, and
    for every current user and every message, the test that keeps the
    message from the boot snapshot and the test that keeps it from a live
    [message] event give the same answer. *)
Theorem C2_boot_and_live_same_filter
  (me : User.t) (ks : list Click) (m : ChatMessage.t) :
  boot_accepts (closure_of me (clicks ks first_view)) m =
  live_accepts (closure_of me (clicks ks first_view)) m.
Proof.
  apply boot_live_agree. simpl. intros Hd.
  apply clicks_consistent in Hd. destruct Hd as [u Hu]. congruence.
Qed.

(** ** The running client *)

Lemma installed_is_general (me : User.t) (m : ChatMessage.t) :
  boot_accepts (installed_closure me) m = boot_general m
  /\ live_accepts (installed_closure me) m = boot_general m.
Proof. split; reflexivity. Qed.

(** C1 (what the client does). The handler of the socket keeps the
    conversation state of the first render, so the client applies the
    filter of general chat whatever conversation is open.  After a click
    on the user [b] the client is in the direct conversation with [b], and
    the history it shows for a boot snapshot is the messages of the
    snapshot that general chat accepts, not those whose author and
    recipient are the current user and [b].  For alice, who clicks on bob
    and then receives a general message of bob, a message of bob to her
    and her own message to bob, the list shows the general message
    alone. *)
Theorem C1_direct_conversation_shows_general_chat
  (me b : User.t) (history : list ChatMessage.t) (us : option (list User.t)) :
  (let cl :=
     client_run me
       [clicked (on_user b); received (ServerEvent.boot (Some history) us)]
       first_client in
   View.isDirectMessage (view cl) = true
   /\ View.selectedUser (view cl) = Some b
   /\ View.messages (view cl) = filter boot_general history)
  /\ (let cl :=
        client_run alice
          [clicked (on_user bob);
           received (ServerEvent.message from_bob);
           received (ServerEvent.message bob_to_alice);
           received (ServerEvent.message alice_to_bob)]
          first_client in
      View.isDirectMessage (view cl) = true
      /\ View.selectedUser (view cl) = Some bob
      /\ View.messages (view cl) = [from_bob]
      /\ between (User.id alice) (User.id bob) bob_to_alice
      /\ between (User.id alice) (User.id bob) alice_to_bob
      /\ ~ between (User.id alice) (User.id bob) from_bob).
Proof.
  split.
  - cbv zeta. cbn [client_run client_step]. repeat split.
  - cbv zeta. repeat split.
    + right. split; reflexivity.
    + left. split; reflexivity.
    + intros [[_ H]|[_ H]]; discriminate H.
Qed.

(** X8. However the user clicks through the sidebar and the General Chat
    button, direct mode is on exactly when a user is selected, the list is
    empty right after a click, and the snapshot and the live event keep
    the same messages: the state in which they differ is never reached. *)
Theorem X8_clicks_keep_mode_and_selection_together
  (ks : list Click) (me : User.t) :
  let v := clicks ks first_view in
  (View.isDirectMessage v = true <-> exists u, View.selectedUser v = Some u)
  /\ (ks <> [] -> View.messages v = [])
  /\ (forall m, boot_accepts (closure_of me v) m = live_accepts (closure_of me v) m).
Proof.
  cbv zeta.
  assert (Hinv : View.isDirectMessage (clicks ks first_view) = true <->
                 exists u, View.selectedUser (clicks ks first_view) = Some u).
  { destruct ks as [|k ks] using rev_ind.
    - simpl. split; [discriminate | intros [u H]; discriminate].
    - rewrite clicks_last. apply click_consistent. }
  split; [exact Hinv|]. split.
  - destruct ks as [|k ks] using rev_ind; [congruence|].
    intros _. rewrite clicks_last. now destruct k.
  - intros m. apply boot_live_agree. simpl. intros Hd.
    apply Hinv in Hd. destruct Hd as [u Hu]. congruence.
Qed.

Lemma X8_clicks_keep_mode_and_selection_together_witness :
  View.messages (clicks [on_user bob; on_general; on_user alice] first_view) = [].
Proof.
  destruct (X8_clicks_keep_mode_and_selection_together
              [on_user bob; on_general; on_user alice] alice) as (_ & H & _).
  apply H. discriminate.
Defined.

(** ** What [trim] removes *)

Lemma trimStart_split (s : jsstring) :
  exists pre, s = pre ++ trimStart s
              /\ Forall (fun c => is_white_space c = true) pre.
Proof.
  induction s as [|c s (pre & E & F)]; simpl.
  - exists []. split; [reflexivity | constructor].
  - destruct (is_white_space c) eqn:W.
    + exists (c :: pre). split; [simpl; now f_equal | now constructor].
    + exists []. split; [reflexivity | constructor].
Qed.

Lemma trimStart_idem (s : jsstring) : trimStart (trimStart s) = trimStart s.
Proof.
  induction s as [|c s IH]; simpl; [reflexivity|].
  destruct (is_white_space c) eqn:W; [exact IH|]. simpl. now rewrite W.
Qed.

Lemma trimStart_keeps (s : jsstring) (c : N) (r : jsstring) :
  s = c :: r -> is_white_space c = false -> trimStart s = s.
Proof. intros -> W. simpl. now rewrite W. Qed.

(** Trimming takes white space off the two ends and nothing else. *)
Lemma trim_split (s : jsstring) :
  exists pre post,
    s = pre ++ trim s ++ post
    /\ Forall (fun c => is_white_space c = true) pre
    /\ Forall (fun c => is_white_space c = true) post.
Proof.
  destruct (trimStart_split s) as (pre & E & F).
  destruct (trimStart_split (rev (trimStart s))) as (q & Eq & Fq).
  exists pre, (rev q). repeat split; [|assumption | now apply Forall_rev].
  unfold trim, trimEnd. rewrite <- rev_app_distr, <- Eq, rev_involutive.
  exact E.
Qed.

Lemma trim_first (s : jsstring) (c : N) (r : jsstring) :
  trim s = c :: r -> is_white_space c = false.
Proof.
  intros H.
  destruct (trimStart_split (rev (trimStart s))) as (q & Eq & _).
  assert (E : trimStart s = trim s ++ rev q).
  { unfold trim, trimEnd. rewrite <- rev_app_distr, <- Eq.
    now rewrite rev_involutive. }
  rewrite H in E. simpl in E. now apply trimStart_head in E.
Qed.

Lemma trim_last (s init : jsstring) (c : N) :
  trim s = init ++ [c] -> is_white_space c = false.
Proof.
  unfold trim, trimEnd. intros H.
  apply (f_equal (@rev N)) in H. rewrite rev_involutive, rev_app_distr in H.
  simpl in H. now apply trimStart_head in H.
Qed.

Lemma trim_idem (s : jsstring) : trim (trim s) = trim s.
Proof.
  assert (E : trimStart (trim s) = trim s).
  { destruct (trim s) as [|c r] eqn:T; [reflexivity|].
    apply (trimStart_keeps eq_refl). now apply trim_first in T. }
  unfold trim at 1. rewrite E. unfold trim, trimEnd.
  now rewrite rev_involutive, trimStart_idem.
Qed.

(** ** More on sending *)

(** [sendMessage] either sends nothing and changes nothing, or sends one
    frame that carries the trimmed input and clears the input. *)
Lemma sendMessage_cases (k : Composer) :
  sendMessage k = ([], k)
  \/ trim (input k) <> [] /\ wsRef k = Some WebSocket.OPEN
     /\ snd (sendMessage k) = clear_input k
     /\ (fst (sendMessage k) = [Raw (trim (input k))]
         \/ exists d, fst (sendMessage k) = [Json d]
                      /\ MessageData.content d = trim (input k)
                      /\ MessageData.recipientId d =
                         num_or_null (selectedUser_id (selected k))).
Proof.
  unfold sendMessage.
  destruct (negb (str_truthy (trim (input k))) || not_open (wsRef k)) eqn:G;
    [now left|].
  apply sendMessage_guard in G. destruct G as [G1 G2]. right.
  split; [exact G1|]. split; [exact G2|].
  destruct (directMode k || truthy (replyTo k)); simpl.
  - split; [reflexivity|]. right. eexists. repeat split.
  - split; [reflexivity|]. now left.
Qed.

(** X9. [sendMessage] cannot send the same text twice: once it has sent
    a frame, the input and the reply are cleared and calling it again
    sends nothing; and when it sends nothing it leaves the input and the
    reply as they were. *)
Theorem X9_no_double_send (k : Composer) :
  (fst (sendMessage k) <> [] ->
   input (snd (sendMessage k)) = []
   /\ replyTo (snd (sendMessage k)) = None
   /\ fst (sendMessage (snd (sendMessage k))) = [])
  /\ (fst (sendMessage k) = [] -> snd (sendMessage k) = k).
Proof.
  destruct (sendMessage_cases k) as [E|(Ht & Ho & Es & Ef)].
  - rewrite E. simpl. split; [congruence | reflexivity].
  - split.
    + intros _. rewrite Es. repeat split.
    + intros H. destruct Ef as [Ef|(d & Ef & _)]; rewrite Ef in H; discriminate.
Qed.

Lemma X9_no_double_send_witness :
  fst (sendMessage
         (snd (sendMessage {| wsRef := Some WebSocket.OPEN; directMode := false;
                              selected := None; replyTo := None;
                              input := lit "once" |}))) = [].
Proof.
  destruct (X9_no_double_send
              {| wsRef := Some WebSocket.OPEN; directMode := false;
                 selected := None; replyTo := None; input := lit "once" |})
    as [H _].
  apply H. discriminate.
Defined.

(** X10. What [sendMessage] sends is the input without the white space
    at its two ends and nothing else: the text of the frame is not empty,
    begins and ends with a character that is not white space, and the
    input is that text between two runs of white space. *)
Theorem X10_sent_text_is_input_trimmed (k : Composer) (f : Frame) :
  In f (fst (sendMessage k)) ->
  exists sent,
    (f = Raw sent \/ exists d, f = Json d /\ MessageData.content d = sent)
    /\ (exists pre post,
           input k = pre ++ sent ++ post
           /\ Forall (fun c => is_white_space c = true) pre
           /\ Forall (fun c => is_white_space c = true) post)
    /\ (exists first rest, sent = first :: rest /\ is_white_space first = false)
    /\ (exists init last, sent = init ++ [last] /\ is_white_space last = false).
Proof.
  intros Hin. exists (trim (input k)).
  destruct (sendMessage_cases k) as [E|(Ht & _ & _ & Ef)].
  - rewrite E in Hin. destruct Hin.
  - split.
    + destruct Ef as [Ef|(d & Ef & Hc & _)]; rewrite Ef in Hin;
        destruct Hin as [<-|[]]; [now left | right; now exists d].
    + split; [apply trim_split|]. split.
      * destruct (trim (input k)) as [|c r] eqn:T; [contradiction|].
        exists c, r. split; [reflexivity | now apply trim_first in T].
      * destruct (exists_last Ht) as (init & c & T).
        exists init, c. split; [exact T | now apply trim_last in T].
Qed.

Lemma X10_sent_text_is_input_trimmed_witness :
  exists sent,
    (Raw (lit "hello all") = Raw sent
     \/ exists d, Raw (lit "hello all") = Json d /\ MessageData.content d = sent)
    /\ (exists pre post,
           lit "  hello all " = pre ++ sent ++ post
           /\ Forall (fun c => is_white_space c = true) pre
           /\ Forall (fun c => is_white_space c = true) post)
    /\ (exists first rest, sent = first :: rest /\ is_white_space first = false)
    /\ (exists init last, sent = init ++ [last] /\ is_white_space last = false).
Proof.
  apply (X10_sent_text_is_input_trimmed
           {| wsRef := Some WebSocket.OPEN; directMode := false;
              selected := None; replyTo := None; input := lit "  hello all " |}
           (Raw (lit "hello all"))).
  left. reflexivity.
Defined.

Lemma startsWith_true (s p : jsstring) :
  startsWith s p = true <-> exists rest, s = p ++ rest.
Proof.
  revert s. induction p as [|a p IH]; intros s; simpl.
  - split; [intros _; now exists s | now destruct s].
  - destruct s as [|b s].
    + split; [discriminate | intros [rest H]; discriminate].
    + simpl. rewrite andb_true_iff, N.eqb_eq, IH. split.
      * intros [-> [rest ->]]. now exists rest.
      * intros [rest H]. injection H as -> ->. split; [reflexivity|].
        now exists rest.
Qed.

(** X11. A frame of [handleFileUpload] is never addressed to the selected
    user, also in a direct conversation: it has no [recipientId].  Its
    type is never text: it is image exactly when the type of the file
    starts with [image/] and video exactly when it starts with [video/].
    The upload clears the reply and leaves the input as it is. *)
Theorem X11_upload_frame
  (k : Composer) (file_type : jsstring) (response : option Response)
  (d : MessageData.t) :
  In (Json d) (fst (handleFileUpload k (Some file_type) response)) ->
  MessageData.recipientId d = undefined
  /\ MessageData.messageType d <> MessageType.text
  /\ (MessageData.messageType d = MessageType.image <->
      exists rest, file_type = lit "image/" ++ rest)
  /\ (MessageData.messageType d = MessageType.video <->
      exists rest, file_type = lit "video/" ++ rest)
  /\ input (snd (handleFileUpload k (Some file_type) response)) = input k
  /\ replyTo (snd (handleFileUpload k (Some file_type) response)) = None.
Proof.
  pose proof (startsWith_true file_type (lit "image/")) as SI.
  pose proof (startsWith_true file_type (lit "video/")) as SV.
  unfold handleFileUpload.
  destruct (not_open (wsRef k)); [intros []|].
  destruct response as [r|]; [|intros []].
  destruct (ok r); [|intros []].
  cbn [fst snd In]. intros [H|[]]. injection H as <-.
  cbn [MessageData.recipientId MessageData.messageType clear_reply input replyTo].
  rewrite <- SI, <- SV. unfold upload_messageType.
  destruct (startsWith file_type (lit "image/")) eqn:I.
  - repeat split; try discriminate.
    intros V. destruct (proj1 SI eq_refl) as [rest ->]. discriminate V.
  - destruct (startsWith file_type (lit "video/")) eqn:V;
      repeat split; discriminate.
Qed.

Lemma X11_upload_frame_witness :
  MessageData.recipientId
    (MessageData.mk [] (val (lit "/files/clip.mp4")) (val (lit "clip.mp4"))
       (val 4096%Z) MessageType.video null undefined) = undefined.
Proof.
  apply (X11_upload_frame
           {| wsRef := Some WebSocket.OPEN; directMode := true;
              selected := Some bob; replyTo := None; input := lit "draft" |}
           (lit "video/mp4")
           (Some {| ok := true;
                    json := {| up_fileUrl := val (lit "/files/clip.mp4");
                               up_fileName := val (lit "clip.mp4");
                               up_fileSize := val 4096%Z |} |})).
  left. reflexivity.
Defined.

Lemma client_eta (cl : Client) : with_state cl (state_of cl) = cl.
Proof. destruct cl as [[su dm ms] on]. reflexivity. Qed.

(** X12. What is sent to a selected user does not come back into the
    list: in a direct conversation with a user whose id is not 0, a
    [message] event whose [recipientId] is that of a frame of
    [sendMessage] or [sendEmojiDirectly] is dropped by the handler of the
    socket, which keeps the filter of general chat; the client is left as
    it was, whoever the author of the message is. *)
Theorem X12_direct_frame_is_not_shown_back
  (me b : User.t) (k : Composer) (emoji : jsstring) (d : MessageData.t)
  (m : ChatMessage.t) (cl : Client) :
  directMode k = true ->
  selected k = Some b ->
  User.id b <> 0%Z ->
  In (Json d) (fst (sendMessage k)) \/ In (Json d) (sendEmojiDirectly k emoji) ->
  ChatMessage.recipientId m = MessageData.recipientId d ->
  client_step me (received (ServerEvent.message m)) cl = cl.
Proof.
  intros Hd Hs Hb Hin Hr.
  assert (E : MessageData.recipientId d = val (User.id b)).
  { assert (R : num_or_null (selectedUser_id (selected k)) = val (User.id b)).
    { rewrite Hs. unfold num_or_null. simpl.
      apply Z.eqb_neq in Hb. now rewrite Hb. }
    destruct Hin as [Hin|Hin].
    - destruct (sendMessage_cases k) as [E|(_ & _ & _ & [Ef|(d' & Ef & _ & Er)])];
        [rewrite E in Hin | rewrite Ef in Hin | rewrite Ef in Hin].
      + destruct Hin.
      + destruct Hin as [H|[]]. discriminate H.
      + destruct Hin as [H|[]]. injection H as <-. now rewrite Er.
    - unfold sendEmojiDirectly in Hin.
      destruct (not_open (wsRef k)); [destruct Hin|].
      rewrite Hd in Hin. destruct Hin as [H|[]]. injection H as <-. exact R. }
  cbn [client_step].
  rewrite handle_message_rejected; [apply client_eta|].
  unfold live_accepts. cbn. rewrite Hr, E. cbn.
  now apply Z.eqb_neq.
Qed.

(** Alice, next to bob, sends him a line; the message that comes back is
    not put in her list. *)
Lemma X12_direct_frame_is_not_shown_back_witness :
  client_step alice (received (ServerEvent.message alice_to_bob))
    (client_run alice [clicked (on_user bob)] first_client) =
  client_run alice [clicked (on_user bob)] first_client.
Proof.
  apply (@X12_direct_frame_is_not_shown_back alice bob
           {| wsRef := Some WebSocket.OPEN; directMode := true;
              selected := Some bob; replyTo := None; input := lit "hi bob" |}
           [240; 376; 8216]%N
           (MessageData.mk (lit "hi bob") undefined undefined undefined
              MessageType.text null (val 2%Z))
           alice_to_bob
           (client_run alice [clicked (on_user bob)] first_client)).
  - reflexivity.
  - reflexivity.
  - discriminate.
  - left. left. reflexivity.
  - reflexivity.
Defined.

(** ** Expanding and collapsing messages *)

Lemma has_delete (s : NumSet.t) (x j : nat) :
  NumSet.has (NumSet.delete s x) j =
  if Nat.eqb j x then false else NumSet.has s j.
Proof.
  unfold NumSet.has, NumSet.delete.
  induction s as [|y s IH]; simpl.
  - now destruct (Nat.eqb j x).
  - destruct (Nat.eqb x y) eqn:Exy; simpl.
    + rewrite IH. apply Nat.eqb_eq in Exy. subst y.
      destruct (Nat.eqb j x); reflexivity.
    + rewrite IH. destruct (Nat.eqb j x) eqn:Ejx; [|reflexivity].
      apply Nat.eqb_eq in Ejx. subst j. now rewrite Exy.
Qed.

Lemma has_add (s : NumSet.t) (x j : nat) :
  NumSet.has (NumSet.add s x) j = Nat.eqb j x || NumSet.has s j.
Proof.
  unfold NumSet.add. destruct (NumSet.has s x) eqn:H.
  - destruct (Nat.eqb j x) eqn:E; [|reflexivity].
    apply Nat.eqb_eq in E. subst j. now rewrite H.
  - unfold NumSet.has. rewrite existsb_app. simpl.
    rewrite orb_false_r. apply orb_comm.
Qed.

Lemma has_In (s : NumSet.t) (x : nat) : NumSet.has s x = true <-> In x s.
Proof.
  unfold NumSet.has. rewrite existsb_exists. split.
  - intros (y & Hy & E). apply Nat.eqb_eq in E. now subst y.
  - intros H. exists x. split; [exact H | apply Nat.eqb_refl].
Qed.

Lemma toggle_has (i j : nat) (s : NumSet.t) :
  NumSet.has (toggleMessageExpansion i s) j =
  if Nat.eqb j i then negb (NumSet.has s i) else NumSet.has s j.
Proof.
  unfold toggleMessageExpansion. destruct (NumSet.has s i) eqn:H.
  - rewrite has_delete. now destruct (Nat.eqb j i).
  - rewrite has_add. now destruct (Nat.eqb j i).
Qed.

Lemma toggle_twice_has (i j : nat) (s : NumSet.t) :
  NumSet.has (toggleMessageExpansion i (toggleMessageExpansion i s)) j =
  NumSet.has s j.
Proof.
  rewrite !toggle_has, Nat.eqb_refl.
  destruct (Nat.eqb j i) eqn:E; [|reflexivity].
  apply Nat.eqb_eq in E. subst j. apply negb_involutive.
Qed.

(** X13. [toggleMessageExpansion] flips whether its index is expanded and
    changes no other index; doing it twice gives back the expansions there
    were; and the set keeps each index at most once. *)
Theorem X13_toggle_flips_one_index (i : nat) (s : NumSet.t) :
  (forall j,
      NumSet.has (toggleMessageExpansion i s) j =
      if Nat.eqb j i then negb (NumSet.has s i) else NumSet.has s j)
  /\ (forall j,
         NumSet.has (toggleMessageExpansion i (toggleMessageExpansion i s)) j =
         NumSet.has s j)
  /\ (NoDup s -> NoDup (toggleMessageExpansion i s)).
Proof.
  split; [intros j; apply toggle_has|]. split.
  - intros j. apply toggle_twice_has.
  - intros Hs. unfold toggleMessageExpansion.
    destruct (NumSet.has s i) eqn:H.
    + now apply NoDup_filter.
    + unfold NumSet.add. rewrite H.
      apply NoDup_rev in Hs. rewrite <- (rev_involutive (s ++ [i])).
      apply NoDup_rev. rewrite rev_app_distr. simpl. constructor; [|exact Hs].
      intros Hin. apply in_rev in Hin. apply has_In in Hin. congruence.
Qed.

Lemma X13_toggle_flips_one_index_witness :
  NoDup (toggleMessageExpansion 4 [1; 4; 7]).
Proof.
  destruct (X13_toggle_flips_one_index 4 [1; 4; 7]) as (_ & _ & H).
  apply H. repeat constructor; simpl; intuition lia.
Defined.

(** X14. A message of at most 150 code units is shown whole and without a
    button, expanded or not.  A longer one is shown whole with [Show less]
    when expanded; otherwise what is shown is its first 150 code units
    followed by three dots, with [Read more], and part of it is hidden. *)
Theorem X14_long_messages_are_cut_at_150 (content : jsstring) :
  ((List.length content <= 150)%nat ->
   forall isExpanded, caption isExpanded content = (content, None))
  /\ ((150 < List.length content)%nat ->
      caption true content = (content, Some ShowLess)
      /\ exists head tail,
           caption false content = (head ++ lit "...", Some ReadMore)
           /\ content = head ++ tail
           /\ List.length head = 150%nat
           /\ tail <> []).
Proof.
  unfold caption. split.
  - intros H isExpanded. apply Nat.ltb_ge in H. now rewrite H.
  - intros H. pose proof H as L. apply Nat.ltb_lt in L. rewrite L.
    split; [reflexivity|].
    exists (firstn 150 content), (skipn 150 content).
    split; [reflexivity|]. split; [now rewrite firstn_skipn|].
    split; [rewrite length_firstn; lia|].
    intros E. apply (f_equal (@List.length N)) in E.
    rewrite length_skipn in E. simpl in E. lia.
Qed.

Lemma X14_long_messages_are_cut_at_150_witness :
  caption true (lit "short") = (lit "short", None).
Proof.
  destruct (X14_long_messages_are_cut_at_150 (lit "short")) as [H _].
  apply H. simpl. lia.
Defined.

Lemma render_depends_on_has (s s' : NumSet.t) (m : ChatMessage.t) (j : nat) :
  NumSet.has s' j = NumSet.has s j ->
  renderMessageContent s' m j = renderMessageContent s m j.
Proof.
  intros H. unfold renderMessageContent. now rewrite H.
Qed.

(** X15. Expanding or collapsing one message changes how no other
    message is rendered, and doing it twice renders every message as
    before; on a long message it does change the text and button shown. *)
Theorem X15_toggle_and_render
  (s : NumSet.t) (i j : nat) (m : ChatMessage.t) :
  (j <> i ->
   renderMessageContent (toggleMessageExpansion i s) m j =
   renderMessageContent s m j)
  /\ renderMessageContent (toggleMessageExpansion i (toggleMessageExpansion i s)) m j =
     renderMessageContent s m j
  /\ ((150 < List.length (ChatMessage.content m))%nat ->
      shown_text (renderMessageContent (toggleMessageExpansion i s) m i) <>
      shown_text (renderMessageContent s m i)).
Proof.
  repeat split.
  - intros Hji. apply render_depends_on_has. rewrite toggle_has.
    apply Nat.eqb_neq in Hji. now rewrite Hji.
  - apply render_depends_on_has. apply toggle_twice_has.
  - intros Hlong.
    assert (T : str_truthy (ChatMessage.content m) = true).
    { destruct (ChatMessage.content m); [simpl in Hlong; lia | reflexivity]. }
    unfold renderMessageContent. rewrite toggle_has, Nat.eqb_refl, T.
    unfold caption. apply Nat.ltb_lt in Hlong. rewrite Hlong.
    destruct (NumSet.has s i);
      destruct (ChatMessage.messageType m) as [[]|]; simpl; congruence.
Qed.

Lemma X15_toggle_and_render_witness :
  renderMessageContent (toggleMessageExpansion 0 [2]) from_bob 2 =
  renderMessageContent [2] from_bob 2.
Proof.
  destruct (X15_toggle_and_render [2] 0 2 from_bob) as (H & _).
  apply H. discriminate.
Defined.

(** X16. The address of a picture, video or file always starts with
    [http]: a [fileUrl] that starts with [http] is used as it is, any
    other is put behind [http://localhost:8000], and a missing one gives
    that prefix followed by the word undefined; resolving an address that
    was resolved changes nothing. *)
Theorem X16_media_url_is_absolute (fileUrl : option jsstring) :
  startsWith (media_url fileUrl) (lit "http") = true
  /\ media_url (Some (media_url fileUrl)) = media_url fileUrl
  /\ (forall u, fileUrl = Some u -> startsWith u (lit "http") = true ->
                media_url fileUrl = u)
  /\ (forall u, fileUrl = Some u -> startsWith u (lit "http") = false ->
                media_url fileUrl = lit "http://localhost:8000" ++ u)
  /\ (fileUrl = None ->
      media_url fileUrl = lit "http://localhost:8000undefined").
Proof.
  assert (A : startsWith (media_url fileUrl) (lit "http") = true).
  { unfold media_url. destruct fileUrl as [u|]; [|reflexivity].
    destruct (startsWith u (lit "http")) eqn:E; [exact E | reflexivity]. }
  split; [exact A|]. split; [|split; [|split]].
  - unfold media_url at 1. now rewrite A.
  - intros u -> Hu. unfold media_url. now rewrite Hu.
  - intros u -> Hu. unfold media_url. now rewrite Hu.
  - intros ->. reflexivity.
Qed.

(** An address of a content network is kept, a path of the server is put
    behind the address of the server. *)
Lemma X16_media_url_is_absolute_witness :
  media_url (Some (lit "https://cdn.example.org/cat.png")) =
  lit "https://cdn.example.org/cat.png"
  /\ media_url (Some (lit "/files/cat.png")) =
     lit "http://localhost:8000/files/cat.png".
Proof.
  split.
  - destruct (X16_media_url_is_absolute
                (Some (lit "https://cdn.example.org/cat.png"))) as (_ & _ & H & _).
    apply H; reflexivity.
  - destruct (X16_media_url_is_absolute (Some (lit "/files/cat.png")))
      as (_ & _ & _ & H & _).
    apply (H (lit "/files/cat.png")); reflexivity.
Defined.

(** * More properties of the form *)

Section FormErrors.
Import AuthForm AuthFormInput.

Lemma field_eqb_eq (a b : field) : field_eqb a b = true <-> a = b.
Proof. destruct a, b; simpl; split; congruence. Qed.

Lemma email_errors_shape (formData : FormData) :
  email_errors formData = [] \/
  exists c msg, email_errors formData = [(f_email, String c msg)].
Proof.
  unfold email_errors.
  destruct (negb (str_truthy (email formData))); [right; eauto|].
  destruct (negb (Regex.test email_re (email formData))); [right; eauto | now left].
Qed.

Lemma password_errors_shape (formData : FormData) :
  password_errors formData = [] \/
  exists c msg, password_errors formData = [(f_password, String c msg)].
Proof.
  unfold password_errors.
  destruct (negb (str_truthy (password formData))); [right; eauto|].
  destruct (List.length (password formData) <? 6)%nat; [right; eauto | now left].
Qed.

Lemma username_errors_shape (m : mode) (formData : FormData) :
  username_errors m formData = [] \/
  exists c msg, username_errors m formData = [(f_username, String c msg)].
Proof.
  unfold username_errors.
  destruct (is_signup m && negb (str_truthy (username formData)));
    [right; eauto|].
  destruct (is_signup m && (List.length (username formData) <? 3)%nat);
    [right; eauto | now left].
Qed.

(** X17. After [validateForm] an error message stands under a field
    exactly when that field is not valid: under the email unless it is not
    empty and matches, under the password unless it has 6 characters,
    under the username only in sign-up mode and unless it has 3; no field
    has two messages; and the form is valid exactly when no message
    stands. *)
Theorem X17_errors_stand_under_invalid_fields (m : mode) (formData : FormData) :
  let errors := fst (validateForm m formData) in
  NoDup (map fst errors)
  /\ (has_error f_email errors = false <->
      email formData <> [] /\ Regex.found email_re (email formData))
  /\ (has_error f_password errors = false <->
      (6 <= List.length (password formData))%nat)
  /\ (has_error f_username errors = false <->
      (m = signup ->
       username formData <> [] /\ (3 <= List.length (username formData))%nat))
  /\ (snd (validateForm m formData) = true <->
      forall f, has_error f errors = false).
Proof.
  cbv zeta.
  rewrite <- email_errors_none, <- password_errors_none,
    <- (username_errors_none m), validateForm_true.
  unfold validateForm. cbn [fst].
  destruct (email_errors_shape formData) as [Ee|(ce & me & Ee)];
    destruct (password_errors_shape formData) as [Ep|(cp & mp & Ep)];
    destruct (username_errors_shape m formData) as [Eu|(cu & mu & Eu)];
    rewrite Ee, Ep, Eu; unfold has_error; simpl;
    (split; [repeat constructor; simpl; intuition congruence|]);
    repeat split; try congruence; try discriminate;
    try (intros f; now destruct f);
    try (intros (H1 & H2 & H3); discriminate);
    match goal with
    | H : forall f : field, _ |- _ =>
        pose proof (H f_email) as H1; pose proof (H f_password) as H2;
        pose proof (H f_username) as H3; simpl in H1, H2, H3; discriminate
    end.
Qed.

Lemma found_inside (r : Regex.t) (pre s post : jsstring) :
  Regex.found r s -> Regex.found r (pre ++ s ++ post).
Proof.
  intros (p & w & q & -> & Hw).
  exists (pre ++ p), w, (q ++ post). split; [|exact Hw].
  now rewrite <- !app_assoc.
Qed.

(** X18. The check of the email is a search, not a match of the whole
    text: an email that passes has an [@], a dot and at least 5 code
    units, and every text that contains an email that passes also passes,
    whatever stands before and after it. *)
Theorem X18_email_check_is_a_search (formData : FormData) :
  email_errors formData = [] ->
  (In 64%N (email formData) /\ In 46%N (email formData)
   /\ (5 <= List.length (email formData))%nat)
  /\ (forall pre post longer,
         email longer = pre ++ email formData ++ post ->
         email_errors longer = []).
Proof.
  intros H. apply email_errors_none in H. destruct H as [Hne Hf]. split.
  - apply email_re_found in Hf.
    destruct Hf as (pre & a & b & c & post & -> & Ha & Hb & Hc & _).
    repeat split.
    + apply in_or_app. right. apply in_or_app. right. now left.
    + do 4 (apply in_or_app; right). now left.
    + rewrite !length_app. simpl.
      destruct a; [contradiction|]. destruct b; [contradiction|].
      destruct c; [contradiction|]. simpl. lia.
  - intros pre post longer E. apply email_errors_none. rewrite E. split.
    + destruct (email formData); [contradiction|]. now destruct pre.
    + now apply found_inside.
Qed.

Lemma X18_email_check_is_a_search_witness :
  email_errors {| email := lit "not an address: a@b.c, sorry";
                  password := []; username := [] |} = [].
Proof.
  destruct (X18_email_check_is_a_search
              {| email := lit "a@b.c"; password := []; username := [] |})
    as [_ H].
  - reflexivity.
  - apply (H (lit "not an address: ") (lit ", sorry")). reflexivity.
Defined.

Lemma clear_error_same (name : field) (errors : Errors) :
  has_error name (clear_error name errors) = false.
Proof.
  unfold has_error. induction errors as [|[k v] errors IH]; simpl.
  - now rewrite (proj2 (field_eqb_eq name name) eq_refl).
  - destruct (field_eqb k name) eqn:E; simpl; rewrite E; [reflexivity | exact IH].
Qed.

Lemma clear_error_other (name other : field) (errors : Errors) :
  other <> name ->
  error_of other (clear_error name errors) = error_of other errors.
Proof.
  intros Hne. induction errors as [|[k v] errors IH]; simpl.
  - destruct (field_eqb name other) eqn:E; [|reflexivity].
    apply field_eqb_eq in E. congruence.
  - destruct (field_eqb k name) eqn:E; simpl.
    + apply field_eqb_eq in E. subst k.
      destruct (field_eqb name other) eqn:E'; [|reflexivity].
      apply field_eqb_eq in E'. congruence.
    + now rewrite IH.
Qed.

Lemma clear_error_keys (name : field) (errors : Errors) :
  error_of name errors <> None ->
  map fst (clear_error name errors) = map fst errors.
Proof.
  induction errors as [|[k v] errors IH]; simpl; [congruence|].
  destruct (field_eqb k name) eqn:E; simpl; [reflexivity|].
  intros H. now rewrite IH.
Qed.

(** X19. Typing in a field stores what was typed in that field and leaves
    the other two as they were; it takes the error message off that field
    and off no other, and the fields that have an entry stay the same. *)
Theorem X19_typing_changes_one_field
  (name : field) (value : jsstring) (formData : FormData) (errors : Errors) :
  let after := handleChange name value (formData, errors) in
  get name (fst after) = value
  /\ has_error name (snd after) = false
  /\ map fst (snd after) = map fst errors
  /\ (forall other, other <> name ->
         get other (fst after) = get other formData
         /\ error_of other (snd after) = error_of other errors).
Proof.
  unfold handleChange. cbn [fst snd]. repeat split.
  - now destruct name.
  - destruct (has_error name errors) eqn:H; [apply clear_error_same | exact H].
  - destruct (has_error name errors) eqn:H; [|reflexivity].
    apply clear_error_keys. unfold has_error in H.
    destruct (error_of name errors); congruence.
  - destruct name, other; simpl; congruence.
  - destruct (has_error name errors); [|reflexivity].
    now apply clear_error_other.
Qed.

Lemma X19_typing_changes_one_field_witness :
  error_of f_password
    (snd (handleChange f_email (lit "a@b.c")
            ({| email := []; password := []; username := [] |},
             fst (validateForm signin
                    {| email := []; password := []; username := [] |})))) =
  error_of f_password
    (fst (validateForm signin {| email := []; password := []; username := [] |})).
Proof.
  destruct (X19_typing_changes_one_field f_email (lit "a@b.c")
              {| email := []; password := []; username := [] |}
              (fst (validateForm signin
                      {| email := []; password := []; username := [] |})))
    as (_ & _ & _ & H).
  apply (H f_password). discriminate.
Defined.

End FormErrors.

(** Signing in with a good email and password: no message under the
    username, whatever it holds. *)
Lemma X17_errors_stand_under_invalid_fields_witness :
  AuthFormInput.has_error AuthForm.f_username
    (fst (AuthForm.validateForm AuthForm.signin
            {| AuthForm.email := lit "a@b.c"; AuthForm.password := lit "123456";
               AuthForm.username := lit "x" |})) = false.
Proof.
  destruct (X17_errors_stand_under_invalid_fields AuthForm.signin
              {| AuthForm.email := lit "a@b.c"; AuthForm.password := lit "123456";
                 AuthForm.username := lit "x" |}) as (_ & _ & _ & H & _).
  apply H. discriminate.
Defined.

(** * Signing in and out *)

(** X20. [handleAuth] always ends with the spinner off.  It hands over a
    token exactly when a login request is answered well, and the token is
    the [access_token] of the answer; a sign-up never does, and when it is
    answered well the form goes to sign-in mode.  A refusal of the server
    leaves the mode as it is and always shows a text: the [detail] of the
    answer, or [Authentication failed] when there is none. *)
Theorem X20_handleAuth_outcomes (s : AuthContainer.t) (o : AuthContainer.Outcome) :
  AuthContainer.isLoading (fst (AuthContainer.handleAuth s o)) = false
  /\ (forall token,
         snd (AuthContainer.handleAuth s o) = Some token <->
         AuthContainer.mode s = AuthForm.signin
         /\ exists detail, o = AuthContainer.Responded true detail token)
  /\ (forall detail token,
         AuthContainer.mode s = AuthForm.signup ->
         o = AuthContainer.Responded true detail token ->
         AuthContainer.mode (fst (AuthContainer.handleAuth s o)) = AuthForm.signin)
  /\ (forall detail token,
         o = AuthContainer.Responded false detail token ->
         AuthContainer.mode (fst (AuthContainer.handleAuth s o)) =
         AuthContainer.mode s
         /\ AuthContainer.error (fst (AuthContainer.handleAuth s o)) <> []
         /\ (forall c d, detail = Some (c :: d) ->
               AuthContainer.error (fst (AuthContainer.handleAuth s o)) = c :: d)).
Proof.
  split; [|split; [|split]].
  - destruct o as [[msg|]|[] detail tok]; simpl; try reflexivity.
    now destruct (AuthContainer.mode s).
  - intros token. split.
    + destruct o as [[msg|]|[] detail tok]; simpl; try discriminate.
      destruct (AuthContainer.mode s); [|discriminate].
      intros H. injection H as ->. split; [reflexivity | now exists detail].
    + intros (Hm & detail & ->). simpl. now rewrite Hm.
  - intros detail token Hm ->. simpl. now rewrite Hm.
  - intros detail token ->. simpl. repeat split.
    + now destruct detail as [[|c d]|].
    + intros c d ->. reflexivity.
Qed.

Lemma X20_handleAuth_outcomes_witness :
  AuthContainer.mode
    (fst (AuthContainer.handleAuth
            (AuthContainer.mk AuthForm.signup true [])
            (AuthContainer.Responded true None []))) = AuthForm.signin.
Proof.
  destruct (X20_handleAuth_outcomes (AuthContainer.mk AuthForm.signup true [])
              (AuthContainer.Responded true None [])) as (_ & _ & H & _).
  apply (H None []); reflexivity.
Defined.

Lemma page_step_keeps_token (e : PageEvent) (b : Browser) :
  (forall t, Home.render (home b) = Home.ChatApp t -> authToken b = Some t) ->
  forall t, Home.render (home (page_step e b)) = Home.ChatApp t ->
            authToken (page_step e b) = Some t.
Proof.
  intros Hb t. destruct e as [|tok| |]; simpl.
  - destruct (authToken b) as [[|c s]|]; cbn; intros H;
      first [discriminate H | congruence].
  - destruct tok as [|c s]; cbn; intros H;
      first [discriminate H | congruence].
  - cbn. discriminate.
  - cbn. discriminate.
Qed.

(** X21. Whatever happens to a page that starts in a fresh browser
    (logins, logouts, rejected profiles, reloads, in any order), the chat
    is only ever shown with the token that the browser has stored. *)
Theorem X21_chat_shown_with_stored_token (events : list PageEvent) (t : jsstring) :
  Home.render (home (page_run events fresh_browser)) = Home.ChatApp t ->
  authToken (page_run events fresh_browser) = Some t.
Proof.
  assert (G : forall b,
             (forall t, Home.render (home b) = Home.ChatApp t ->
                        authToken b = Some t) ->
             forall t, Home.render (home (page_run events b)) = Home.ChatApp t ->
                       authToken (page_run events b) = Some t).
  { induction events as [|e events IH]; intros b Hb; [exact Hb|].
    cbn [page_run]. apply IH. now apply page_step_keeps_token. }
  apply G. intros t0 H. discriminate H.
Qed.

Lemma X21_chat_shown_with_stored_token_witness :
  authToken (page_run [signed_in (lit "tok-1"); reload] fresh_browser) =
  Some (lit "tok-1").
Proof.
  apply (X21_chat_shown_with_stored_token [signed_in (lit "tok-1"); reload]).
  reflexivity.
Defined.

Lemma page_run_app (e1 e2 : list PageEvent) (b : Browser) :
  page_run (e1 ++ e2) b = page_run e2 (page_run e1 b).
Proof.
  revert b. induction e1 as [|e e1 IH]; intros b; [reflexivity|].
  simpl. apply IH.
Qed.

(** X22. A login survives a reload and a logout does not: after a login
    with a token that is not empty, opening the page again shows the chat
    with that token; after a logout it shows the sign-in form, whatever
    happened before.  A rejected profile shows the sign-in form but
    forgets nothing: after a reload the chat is back with the same
    token. *)
Theorem X22_sessions_and_reloads (before : list PageEvent) (b : Browser) :
  (forall c t,
      Home.render (home (page_run (before ++ [signed_in (c :: t); reload]) b)) =
      Home.ChatApp (c :: t))
  /\ Home.render (home (page_run (before ++ [logout; reload]) b)) =
     Home.AuthContainer
  /\ (forall c t,
         authToken (page_run before b) = Some (c :: t) ->
         Home.render (home (page_run (before ++ [profile_rejected]) b)) =
         Home.AuthContainer
         /\ Home.render (home (page_run (before ++ [profile_rejected; reload]) b)) =
            Home.ChatApp (c :: t)).
Proof.
  split; [|split].
  - intros c t. rewrite page_run_app. reflexivity.
  - rewrite page_run_app. reflexivity.
  - intros c t H. split; rewrite page_run_app; cbn.
    + reflexivity.
    + now rewrite H.
Qed.

Lemma X22_sessions_and_reloads_witness :
  Home.render
    (home (page_run ([signed_in (lit "tok-1")] ++ [profile_rejected; reload])
             fresh_browser)) = Home.ChatApp (lit "tok-1").
Proof.
  destruct (X22_sessions_and_reloads [signed_in (lit "tok-1")] fresh_browser)
    as (_ & _ & H).
  apply (H 116%N (lit "ok-1")). reflexivity.
Defined.

(** * Snapshots *)

(** X23. A [boot] event replaces what the client had: the state after it
    does not depend on the state before.  The messages shown are the
    snapshot without the messages the conversation does not accept, the
    others in the order of the snapshot, and the users online are those
    of the event. *)
Theorem X23_snapshot_replaces_and_keeps_order
  (c : Closure) (ms : option (list ChatMessage.t)) (us : option (list User.t))
  (st st0 : State) :
  handle c (ServerEvent.boot ms us) st = handle c (ServerEvent.boot ms us) st0
  /\ erased (fun m => boot_accepts c m = false) (or_empty ms)
       (messages (handle c (ServerEvent.boot ms us) st))
  /\ onlineUsers (handle c (ServerEvent.boot ms us) st) = or_empty us.
Proof.
  split; [reflexivity|]. split; [|reflexivity].
  rewrite handle_boot_messages.
  rewrite (filter_ext (boot_accepts c) (fun m => negb (negb (boot_accepts c m))))
    by (intros m; now rewrite negb_involutive).
  apply filter_erased. intros m. apply negb_true_iff.
Qed.
